(** * Boston Housing / XGBoost deployment notebooks

    A shallow embedding of the two tutorial notebooks of the repository:
    the notebook that drives SageMaker through the estimator object of the
    high-level API, and [Boston Housing - XGBoost (Deploy) - Low Level.ipynb],
    which drives it through the job-description dicts of the low-level
    clients.

    Both notebooks are straight-line Python.  The local computation they
    perform (joining strings, writing CSV files, guarding a directory,
    deriving resource names) is embedded as Rocq functions; the calls
    into numpy, pandas, scikit-learn and the SageMaker client are embedded
    by the documented behaviour of the called function, and the calls to the
    remote platform are recorded as events of a trace. *)

From Stdlib Require Import ZArith QArith List Ascii String SpecFloat.
From stdpp Require Import base option list gmap strings pretty sorting.

(** ** Python strings *)

Module PyStr.

(** The two separator characters the notebooks use. *)
Definition comma : ascii := ","%char.
Definition newline : ascii := "010"%char.

(** [sep.join(parts)] *)
Fixpoint join (sep : string) (parts : list string) : string :=
  match parts with
  | [] => ""
  | [p] => p
  | p :: rest => p +:+ sep +:+ join sep rest
  end.

(** [s.split(sep)] for a one-character separator.  As in Python, the
    empty string splits into one empty piece. *)
Fixpoint split (sep : ascii) (s : string) : list string :=
  match s with
  | EmptyString => [""]
  | String c s' =>
      if Ascii.eqb c sep then "" :: split sep s'
      else match split sep s' with
           | [] => [String c ""]
           | p :: ps => String c p :: ps
           end
  end.

(** [c in s] *)
Fixpoint contains (c : ascii) (s : string) : bool :=
  match s with
  | EmptyString => false
  | String d s' => Ascii.eqb d c || contains c s'
  end.

Definition sep1 (c : ascii) : string := String c "".

Lemma contains_app c s t :
  contains c (s +:+ t) = contains c s || contains c t.
Proof.
  induction s as [|d s IH]; simpl; [done|].
  by rewrite IH, orb_assoc.
Qed.

(** Splitting a piece without separator followed by the separator and a
    rest: the piece comes off in front. *)
Lemma split_app_sep sep p rest :
  contains sep p = false →
  split sep (p +:+ String sep rest) = p :: split sep rest.
Proof.
  induction p as [|c p IH]; simpl; intros Hc.
  - by rewrite Ascii.eqb_refl.
  - apply orb_false_iff in Hc as [Hc1 Hc2].
    rewrite Hc1, (IH Hc2). done.
Qed.

Lemma split_no_sep sep p :
  contains sep p = false → split sep p = [p].
Proof.
  induction p as [|c p IH]; simpl; intros Hc; [done|].
  apply orb_false_iff in Hc as [Hc1 Hc2].
  by rewrite Hc1, (IH Hc2).
Qed.

(** [split] undoes [join] on a non-empty list of separator-free pieces. *)
Lemma split_join sep (parts : list string) :
  parts ≠ [] →
  Forall (λ p, contains sep p = false) parts →
  split sep (join (sep1 sep) parts) = parts.
Proof.
  induction parts as [|p rest IH]; [done|].
  intros _ Hall. apply Forall_cons in Hall as [Hp Hrest].
  destruct rest as [|q rest].
  - simpl. by apply split_no_sep.
  - change (join (sep1 sep) (p :: q :: rest))
      with (p +:+ String sep (join (sep1 sep) (q :: rest))).
    rewrite split_app_sep by done.
    f_equal. by apply IH.
Qed.

(** A join contains a character exactly when the separator or one of the
    pieces does. *)
Lemma contains_join_false c sep (parts : list string) :
  contains c sep = false →
  Forall (λ p, contains c p = false) parts →
  contains c (join sep parts) = false.
Proof.
  intros Hsep. induction parts as [|p rest IH]; intros Hall; [done|].
  apply Forall_cons in Hall as [Hp Hrest].
  destruct rest as [|q rest]; [done|].
  change (join sep (p :: q :: rest)) with (p +:+ sep +:+ join sep (q :: rest)).
  rewrite !contains_app, Hp, Hsep. simpl. by apply IH.
Qed.

End PyStr.

(** ** Serialising the test matrix (low-level notebook, step 7)

    [[
    payload = [[str(entry) for entry in row] for row in X_test.values]
    payload = '\n'.join([','.join(row) for row in payload])
    ]]

    [X_test.values] is a two-dimensional array of floats; [str] on a float
    is taken as a parameter. *)

Module Payload.
Import PyStr.

Section Serialize.
Variable entry : Type.
Variable str : entry → string.

(** First assignment: the nested comprehension. *)
Definition stringify (values : list (list entry)) : list (list string) :=
  map (λ row, map str row) values.

(** Second assignment: commas inside a row, newlines between rows. *)
Definition join_rows (strings : list (list string)) : string :=
  join (sep1 newline) (map (λ row, join (sep1 comma) row) strings).

Definition payload (values : list (list entry)) : string :=
  join_rows (stringify values).

(** Reading a payload back: split on newlines, then on commas. *)
Definition deserialize (text : string) : list (list string) :=
  map (split comma) (split newline text).

(** The string form of an entry holds neither separator (true of the
    string form of every float). *)
Definition clean (s : string) : bool :=
  negb (contains comma s) && negb (contains newline s).

Definition clean_matrix (values : list (list entry)) : bool :=
  forallb (λ row, forallb (λ e, clean (str e)) row) values.

Lemma clean_matrix_Forall values :
  clean_matrix values = true →
  Forall (λ row, Forall (λ e, contains comma (str e) = false
                              ∧ contains newline (str e) = false) row) values.
Proof.
  unfold clean_matrix. intros H.
  apply Forall_forall. intros row Hrow.
  apply Forall_forall. intros e He.
  rewrite forallb_forall in H.
  specialize (H row (proj1 (list_elem_of_In _ _) Hrow)).
  rewrite forallb_forall in H.
  specialize (H e (proj1 (list_elem_of_In _ _) He)).
  unfold clean in H. apply andb_true_iff in H as [H1 H2].
  by rewrite negb_true_iff in H1, H2.
Qed.

Lemma line_no_newline (row : list entry) :
  Forall (λ e, contains comma (str e) = false
               ∧ contains newline (str e) = false) row →
  contains newline (join (sep1 comma) (map str row)) = false.
Proof.
  intros H. apply contains_join_false; [done|].
  apply Forall_fmap. eapply Forall_impl; [exact H|]. by intros e [_ ?].
Qed.

Lemma split_line (row : list entry) :
  row ≠ [] →
  Forall (λ e, contains comma (str e) = false
               ∧ contains newline (str e) = false) row →
  split comma (join (sep1 comma) (map str row)) = map str row.
Proof.
  intros Hne H. apply split_join.
  - by destruct row.
  - apply Forall_fmap. eapply Forall_impl; [exact H|]. by intros e [? _].
Qed.

(** The lines of a payload of at least one row are the joined rows. *)
Lemma split_payload values :
  values ≠ [] →
  clean_matrix values = true →
  split newline (payload values)
  = map (λ row, join (sep1 comma) (map str row)) values.
Proof.
  intros Hne Hclean. unfold payload, join_rows, stringify.
  rewrite map_map. apply split_join.
  - by destruct values.
  - apply Forall_fmap. apply clean_matrix_Forall in Hclean.
    eapply Forall_impl; [exact Hclean|]. intros row Hrow. simpl.
    by apply line_no_newline.
Qed.

End Serialize.

Example payload_two_rows :
  payload string id [["0.02731"; "18.0"]; ["7.07"; "0.469"]]
  = "0.02731,18.0" +:+ sep1 newline +:+ "7.07,0.469".
Proof. reflexivity. Qed.

(** What reading back the payload of the zero-row matrix gives: one row
    holding one empty string. *)
Example deserialize_zero_rows (entry : Type) (str : entry → string) :
  deserialize (payload entry str []) = [[""]].
Proof. reflexivity. Qed.

End Payload.

(** C8.  In the low-level notebook the payload of a test matrix is the
    string forms of the entries of each row joined by commas, and the rows
    joined by newlines.  Whenever the string forms hold no comma and no
    newline: splitting the payload on newlines and then on commas gives back,
    at row [i] and column [j], the string form of the entry at row [i] and
    column [j] of the matrix; for a matrix with at least one row, all rows
    non-empty, the split payload is exactly the matrix of string forms; and
    the zero-row matrix serialises to the empty string. *)
Theorem payload_round_trip (entry : Type) (str : entry → string)
    (values : list (list entry)) :
  Payload.clean_matrix entry str values = true →
  Payload.payload entry str values
    = PyStr.join (PyStr.sep1 PyStr.newline)
        (map (λ row, PyStr.join (PyStr.sep1 PyStr.comma) (map str row)) values)
  ∧ (∀ i j row e,
       values !! i = Some row → row !! j = Some e →
       ∃ line,
         PyStr.split PyStr.newline (Payload.payload entry str values) !! i
           = Some line
         ∧ PyStr.split PyStr.comma line !! j = Some (str e))
  ∧ (values ≠ [] → Forall (λ row, row ≠ []) values →
     Payload.deserialize (Payload.payload entry str values)
       = Payload.stringify entry str values)
  ∧ Payload.payload entry str [] = "".
Proof.
  intros Hclean. split; [|split; [|split]].
  - unfold Payload.payload, Payload.join_rows, Payload.stringify.
    by rewrite map_map.
  - intros i j row e Hrow He.
    assert (values ≠ []) as Hne by (intros ->; done).
    exists (PyStr.join (PyStr.sep1 PyStr.comma) (map str row)). split.
    + rewrite Payload.split_payload by done.
      rewrite list_lookup_fmap, Hrow. done.
    + rewrite Payload.split_line.
      * rewrite list_lookup_fmap, He. done.
      * intros ->. done.
      * apply Payload.clean_matrix_Forall in Hclean.
        rewrite Forall_forall in Hclean. apply Hclean.
        eapply list_elem_of_lookup_2; eauto.
  - intros Hne Hrows. unfold Payload.deserialize.
    rewrite Payload.split_payload by done.
    rewrite map_map. unfold Payload.stringify.
    apply map_ext_in. intros row Hin.
    apply list_elem_of_In in Hin.
    apply Payload.split_line.
    + rewrite Forall_forall in Hrows. by apply Hrows.
    + apply Payload.clean_matrix_Forall in Hclean.
      rewrite Forall_forall in Hclean. by apply Hclean.
  - reflexivity.
Qed.

Lemma payload_round_trip_witness :
  Payload.clean_matrix string id [["0.02731"; "18.0"]; ["7.07"; "0.469"]] = true
  ∧ Payload.deserialize
      (Payload.payload string id [["0.02731"; "18.0"]; ["7.07"; "0.469"]])
    = [["0.02731"; "18.0"]; ["7.07"; "0.469"]].
Proof.
  split; [reflexivity|].
  destruct (payload_round_trip string id
              [["0.02731"; "18.0"]; ["7.07"; "0.469"]] eq_refl)
    as (_ & _ & Hrt & _).
  apply Hrt; [done|]. repeat constructor; done.
Defined.


(** ** The local file system

    The notebooks touch the file system three times: the guard
    [[
    data_dir = '../data/boston'
    if not os.path.exists(data_dir):
        os.makedirs(data_dir)
    ]]
    and the two [to_csv] calls that open a file below [data_dir] for
    writing. *)

Module FS.

(** An entry is a directory or a regular file with its text. *)
Inductive node :=
| Dir
| File (content : string).

(** A path is the list of its components, innermost first, so that
    [os.path.split] is the decomposition of a cons: the head is the last
    component and the tail is the parent.  The root is the empty list. *)
Abbreviation path := (list string).

(** The operating-system errors that the calls below can raise. *)
Inductive oserror :=
| FileNotFoundError
| NotADirectoryError
| FileExistsError
| IsADirectoryError.

Inductive result (A : Type) :=
| Ok (a : A)
| Raise (e : oserror).
Arguments Ok {A} a.
Arguments Raise {A} e.

Definition bind {A B : Type} (r : result A) (k : A → result B) : result B :=
  match r with
  | Ok a => k a
  | Raise e => Raise e
  end.

(** The entry at a path; the root is always a directory. *)
Definition node_at (fs : gmap path node) (p : path) : option node :=
  match p with
  | [] => Some Dir
  | _ => fs !! p
  end.

(** [os.path.exists(p)]: true of directories and of regular files. *)
Definition exists_ (fs : gmap path node) (p : path) : bool :=
  match node_at fs p with
  | Some _ => true
  | None => false
  end.

Definition parent (p : path) : path := tail p.

(** [os.mkdir(p)] *)
Definition mkdir (fs : gmap path node) (p : path) : result (gmap path node) :=
  match node_at fs p with
  | Some _ => Raise FileExistsError
  | None =>
      match node_at fs (parent p) with
      | Some Dir => Ok (<[p := Dir]> fs)
      | Some (File _) => Raise NotADirectoryError
      | None => Raise FileNotFoundError
      end
  end.

(** [os.makedirs(p)] with [exist_ok=False]: create the missing ancestors,
    then the leaf. *)
Fixpoint makedirs (fs : gmap path node) (p : path) : result (gmap path node) :=
  match p with
  | [] => mkdir fs []
  | _ :: head =>
      bind (if exists_ fs head then Ok fs else makedirs fs head)
           (λ fs', mkdir fs' p)
  end.

(** [open(p, 'w').write(content)], as [to_csv] does it. *)
Definition write_file (fs : gmap path node) (p : path) (content : string)
  : result (gmap path node) :=
  match node_at fs (parent p) with
  | None => Raise FileNotFoundError
  | Some (File _) => Raise NotADirectoryError
  | Some Dir =>
      match node_at fs p with
      | Some Dir => Raise IsADirectoryError
      | _ => Ok (<[p := File content]> fs)
      end
  end.

(** A write fails for lack of a parent directory when the parent of the
    file is missing or is not a directory. *)
Definition lacks_parent {A : Type} (r : result A) : bool :=
  match r with
  | Raise FileNotFoundError | Raise NotADirectoryError => true
  | _ => false
  end.

(** ['../data/boston'] seen from the working directory [cwd] of the
    notebook. *)
Definition data_dir (cwd : path) : path := "boston" :: "data" :: parent cwd.

(** [os.path.join(data_dir, name)] *)
Definition join (dir : path) (name : string) : path := name :: dir.

(** The guard cell of both notebooks. *)
Definition ensure_data_dir (cwd : path) (fs : gmap path node)
  : result (gmap path node) :=
  if negb (exists_ fs (data_dir cwd)) then makedirs fs (data_dir cwd)
  else Ok fs.

Lemma mkdir_Ok fs p fs' :
  mkdir fs p = Ok fs' →
  fs !! p = None ∧ fs' = <[p := Dir]> fs ∧ p ≠ [].
Proof.
  unfold mkdir. destruct p as [|c p]; simpl; [done|].
  intros H. repeat case_match; simplify_eq. done.
Qed.

Lemma makedirs_Ok_dir fs p fs' :
  makedirs fs p = Ok fs' → node_at fs' p = Some Dir ∧ fs ⊆ fs'.
Proof.
  revert fs fs'. induction p as [|c p IH]; intros fs fs'; simpl.
  - intros H. apply mkdir_Ok in H as (_ & _ & ?). done.
  - destruct (exists_ fs p) eqn:Ex; simpl.
    + intros H. apply mkdir_Ok in H as (Hnone & -> & _). split.
      * apply lookup_insert_eq.
      * by apply insert_subseteq.
    + destruct (makedirs fs p) as [fs1|] eqn:E1; simpl; [|done].
      intros H. apply mkdir_Ok in H as (Hnone & -> & _).
      apply IH in E1 as [_ Hsub]. split.
      * apply lookup_insert_eq.
      * etrans; [exact Hsub|]. by apply insert_subseteq.
Qed.

Lemma exists_false_None (fs : gmap path node) c p :
  exists_ fs (c :: p) = false → fs !! (c :: p) = None.
Proof. unfold exists_, node_at. intros H. by case_match. Qed.

Lemma exists_true_Some (fs : gmap path node) c p :
  exists_ fs (c :: p) = true → is_Some (fs !! (c :: p)).
Proof. unfold exists_, node_at. intros H. case_match; [eauto|done]. Qed.

Lemma mkdir_fresh (fs : gmap path node) c p :
  fs !! (c :: p) = None → node_at fs p = Some Dir →
  mkdir fs (c :: p) = Ok (<[c :: p := Dir]> fs).
Proof. unfold mkdir. simpl. by intros -> ->. Qed.

Lemma makedirs_data_dir (cwd : path) (fs : gmap path node) :
  node_at fs (parent cwd) = Some Dir →
  (∀ c, fs !! ("data" :: parent cwd) ≠ Some (File c)) →
  exists_ fs (data_dir cwd) = false →
  ∃ fs', makedirs fs (data_dir cwd) = Ok fs'.
Proof.
  intros Hup Hdata Hd. unfold data_dir in *.
  set (up := parent cwd) in *.
  pose proof (exists_false_None _ _ _ Hd) as Hnone.
  change (makedirs fs ("boston" :: "data" :: up))
    with (bind (if exists_ fs ("data" :: up) then Ok fs
                else makedirs fs ("data" :: up))
               (λ fs', mkdir fs' ("boston" :: "data" :: up))).
  destruct (exists_ fs ("data" :: up)) eqn:Ex.
  - simpl.
    apply exists_true_Some in Ex as [[|c] E]; [|by destruct (Hdata c)].
    rewrite mkdir_fresh by done. eauto.
  - change (makedirs fs ("data" :: up))
      with (bind (if exists_ fs up then Ok fs else makedirs fs up)
                 (λ fs', mkdir fs' ("data" :: up))).
    assert (exists_ fs up = true) as -> by (unfold exists_; by rewrite Hup).
    pose proof (exists_false_None _ _ _ Ex) as Hdn.
    simpl. rewrite (mkdir_fresh fs) by done. simpl.
    rewrite mkdir_fresh; [eauto| |].
    + by rewrite lookup_insert_ne.
    + simpl. by rewrite lookup_insert_eq.
Qed.

End FS.

(** C9, as the guard behaves.  In both notebooks, before the CSV files are
    written, [os.makedirs] is called on the local data directory exactly
    when nothing exists at its path; when something exists there, a
    directory or a regular file, the guard leaves the file system as it is.
    Whenever the guard runs without raising, every entry that existed before
    is unchanged, and the file system has changed exactly when nothing
    existed at the path.  Provided the path is not occupied by a regular
    file: after the guard has run without raising, the path is a directory
    and no write of a file directly below the data directory fails for lack
    of a parent directory.  The guard does run without raising when the
    parent of the working directory is a directory and ['../data'] is not a
    regular file. *)
Theorem ensure_data_dir_spec (cwd : FS.path) (fs : gmap FS.path FS.node) :
  (FS.exists_ fs (FS.data_dir cwd) = true → FS.ensure_data_dir cwd fs = FS.Ok fs)
  ∧ (FS.exists_ fs (FS.data_dir cwd) = false →
     FS.ensure_data_dir cwd fs = FS.makedirs fs (FS.data_dir cwd))
  ∧ (∀ fs', FS.ensure_data_dir cwd fs = FS.Ok fs' →
       fs ⊆ fs'
       ∧ (fs' ≠ fs ↔ FS.exists_ fs (FS.data_dir cwd) = false))
  ∧ ((∀ c, fs !! FS.data_dir cwd ≠ Some (FS.File c)) →
     ∀ fs', FS.ensure_data_dir cwd fs = FS.Ok fs' →
       FS.node_at fs' (FS.data_dir cwd) = Some FS.Dir
       ∧ ∀ name content,
           FS.lacks_parent
             (FS.write_file fs' (FS.join (FS.data_dir cwd) name) content)
           = false)
  ∧ (FS.node_at fs (FS.parent cwd) = Some FS.Dir →
     (∀ c, fs !! ("data" :: FS.parent cwd) ≠ Some (FS.File c)) →
     ∃ fs', FS.ensure_data_dir cwd fs = FS.Ok fs').
Proof.
  unfold FS.ensure_data_dir.
  split; [by intros ->|]. split; [by intros ->|]. split; [|split].
  - intros fs' Hrun.
    destruct (FS.exists_ fs (FS.data_dir cwd)) eqn:Ex; cbn [negb] in Hrun.
    + injection Hrun as <-. split; [done|]. split; [done|done].
    + pose proof (FS.makedirs_Ok_dir _ _ _ Hrun) as [Hd Hsub].
      split; [done|]. split; [done|].
      intros _ ->. unfold FS.exists_ in Ex. by rewrite Hd in Ex.
  - intros Hfile fs' Hrun.
    assert (FS.node_at fs' (FS.data_dir cwd) = Some FS.Dir) as Hdir.
    { destruct (FS.exists_ fs (FS.data_dir cwd)) eqn:Ex; cbn [negb] in Hrun.
      - injection Hrun as <-.
        apply FS.exists_true_Some in Ex as [[|c] E]; [done|].
        by destruct (Hfile c).
      - by pose proof (FS.makedirs_Ok_dir _ _ _ Hrun) as [Hd _]. }
    split; [done|].
    intros name content. unfold FS.write_file, FS.join. simpl FS.parent.
    rewrite Hdir. by repeat case_match.
  - intros Hup Hdata.
    destruct (FS.exists_ fs (FS.data_dir cwd)) eqn:Ex; cbn [negb]; [eauto|].
    by apply FS.makedirs_data_dir.
Qed.

(** Two concrete states around the notebook directory
    [deployment_part2/Tutorials]: one in which nothing exists at
    [deployment_part2/data], and one in which
    [deployment_part2/data/boston] is a regular file. *)
Definition cwd_tutorials : FS.path := ["Tutorials"; "deployment_part2"].

Definition fs_fresh : gmap FS.path FS.node :=
  <[["Tutorials"; "deployment_part2"] := FS.Dir]>
    (<[["deployment_part2"] := FS.Dir]> ∅).

Definition fs_blocked : gmap FS.path FS.node :=
  <[["boston"; "data"; "deployment_part2"] := FS.File ""]>
    (<[["data"; "deployment_part2"] := FS.Dir]> fs_fresh).

Lemma ensure_data_dir_witness :
  (∀ c, fs_fresh !! FS.data_dir cwd_tutorials ≠ Some (FS.File c))
  ∧ ∃ fs',
      FS.ensure_data_dir cwd_tutorials fs_fresh = FS.Ok fs'
      ∧ FS.node_at fs' (FS.data_dir cwd_tutorials) = Some FS.Dir
      ∧ FS.lacks_parent
          (FS.write_file fs'
             (FS.join (FS.data_dir cwd_tutorials) "train.csv") "")
        = false.
Proof.
  assert (∀ c, fs_fresh !! FS.data_dir cwd_tutorials ≠ Some (FS.File c)) as Hfree.
  { intros c. vm_compute. discriminate. }
  split; [exact Hfree|].
  destruct (ensure_data_dir_spec cwd_tutorials fs_fresh)
    as (_ & _ & _ & Hpost & Hruns).
  destruct Hruns as [fs' Hrun].
  - reflexivity.
  - intros c. vm_compute. discriminate.
  - exists fs'. destruct (Hpost Hfree fs' Hrun) as (Hdir & Hwrite).
    split; [exact Hrun|]. split; [exact Hdir|]. apply Hwrite.
Defined.

(** C9 as stated fails when the path of the data directory is occupied by
    a regular file: [os.path.exists] is true of it, the guard creates
    nothing, and the write that follows fails with [NotADirectoryError]. *)
Lemma ensure_data_dir_counterexample :
  ∃ fs',
    FS.ensure_data_dir cwd_tutorials fs_blocked = FS.Ok fs'
    ∧ FS.lacks_parent
        (FS.write_file fs'
           (FS.join (FS.data_dir cwd_tutorials) "validation.csv") "")
      = true.
Proof. exists fs_blocked. split; vm_compute; reflexivity. Qed.


(** ** Data frames, splitting and CSV files

    Cells 4 and 6 of both notebooks:
    [[
    X_bos_pd = pd.DataFrame(boston.data, columns=boston.feature_names)
    Y_bos_pd = pd.DataFrame(boston.target)
    X_train, X_test, Y_train, Y_test = train_test_split(X_bos_pd, Y_bos_pd, test_size=0.33, ...)
    X_train, X_val, Y_train, Y_val = train_test_split(X_train, Y_train, test_size=0.33, ...)
    pd.concat([Y_val, X_val], axis=1).to_csv(os.path.join(data_dir, 'validation.csv'), header=False, index=False)
    pd.concat([Y_train, X_train], axis=1).to_csv(os.path.join(data_dir, 'train.csv'), header=False, index=False)
    ]]
    The high-level notebook passes [random_state=1123] to both calls of
    [train_test_split]; the low-level notebook passes no [random_state]. *)

Inductive notebook :=
| HighLevel
| LowLevel.

Module Frame.
Import PyStr.

Section Frames.
Variable value : Type.

(** A frame: the column names, and the rows in order, each with its index
    label.  A missing cell (NaN) is [None]. *)
Record DataFrame := mkDataFrame {
  columns : list string;
  rows : list (nat * list (option value))
}.

Definition index (df : DataFrame) : list nat := fst <$> rows df.

(** The rows of a frame as a set of labels. *)
Definition row_set (df : DataFrame) : gset nat := list_to_set (index df).

(** [pd.DataFrame(matrix, columns=names)]: labels [0 .. n-1]. *)
Definition of_matrix (matrix : list (list value)) (names : list string)
  : DataFrame :=
  mkDataFrame names (imap (λ i row, (i, Some <$> row)) matrix).

(** [pd.DataFrame(vector)]: one column, named [0]. *)
Definition of_vector (vector : list value) : DataFrame :=
  mkDataFrame ["0"] (imap (λ i v, (i, [Some v])) vector).

(** [df.iloc[positions]].  (pandas raises on a position out of range; the
    positions come from the splitter, which draws them from
    [0 .. len(df)-1], and the model skips any other.) *)
Definition iloc (df : DataFrame) (positions : list nat) : DataFrame :=
  mkDataFrame (columns df) (omap (λ p, rows df !! p) positions).

(** The row of [df] labelled [l], padded with NaN when there is none. *)
Definition reindex (df : DataFrame) (l : nat) : list (option value) :=
  match list_find (λ r, r.1 = l) (rows df) with
  | Some (_, r) => r.2
  | None => replicate (length (columns df)) None
  end.

(** [pd.concat([a, b], axis=1)]: frames with equal indexes are pasted side
    by side, row by row; otherwise both are aligned on the union of the
    labels. *)
Definition concat_columns (a b : DataFrame) : DataFrame :=
  mkDataFrame (columns a ++ columns b)
    (if decide (index a = index b)
     then zip_with (λ ra rb, (ra.1, ra.2 ++ rb.2)) (rows a) (rows b)
     else (λ l, (l, reindex a l ++ reindex b l))
            <$> list_union (index a) (index b)).

(** Formatting of a float in a CSV file is a parameter; NaN is written as
    the empty field. *)
Variable fmt : value → string.

Definition fmt_cell (c : option value) : string :=
  match c with
  | Some v => fmt v
  | None => ""
  end.

Definition csv_line (fields : list string) : string :=
  join (sep1 comma) fields +:+ sep1 newline.

(** [df.to_csv(header=..., index=...)] as text: an optional line of column
    names, then one line per row, each optionally led by the index label. *)
Definition to_csv (df : DataFrame) (header index : bool) : string :=
  (if header
   then csv_line ((if index then [""] else []) ++ columns df)
   else "")
  +:+ String.concat ""
        ((λ r, csv_line ((if index then [pretty r.1] else [])
                         ++ (fmt_cell <$> r.2)))
           <$> rows df).

(** *** Splitting *)

(** The random generators of numpy are a parameter: [seed s] is the
    generator [RandomState(s)], and [shuffle_split g n] is what
    [ShuffleSplit(test_size=0.33)] draws from generator [g] for [n] rows:
    the train positions, the test positions, and the generator after the
    draw. *)
Variable rng : Type.
Variable seed : Z → rng.
Variable shuffle_split : rng → nat → (list nat * list nat) * rng.

(** [train_test_split(X, Y, test_size=0.33, random_state=...)].  With a
    seed the draw comes from a fresh generator and the global generator [g]
    is left alone; without, it comes from the global generator.  Frames of
    different lengths are refused. *)
Definition train_test_split (random_state : option Z) (g : rng)
    (X Y : DataFrame)
  : option ((DataFrame * DataFrame * DataFrame * DataFrame) * rng) :=
  if decide (length (rows X) = length (rows Y)) then
    let '((train, test), g') :=
      match random_state with
      | Some s => ((shuffle_split (seed s) (length (rows X))).1, g)
      | None => shuffle_split g (length (rows X))
      end in
    Some ((iloc X train, iloc X test, iloc Y train, iloc Y test), g')
  else None.

(** *** Facts about indexes and selections *)

Lemma omap_fmap_compose {A B C : Type} (f : B → option C) (g : A → B)
    (l : list A) :
  omap f (g <$> l) = omap (f ∘ g) l.
Proof.
  induction l as [|x l IH]; [done|]. csimpl. rewrite IH. done.
Qed.

Lemma omap_lookup_seq {A : Type} (l : list A) :
  omap (λ p, l !! p) (seq 0 (length l)) = l.
Proof.
  induction l as [|x l IH]; [done|].
  simpl length. simpl seq. csimpl. f_equal.
  rewrite <- fmap_S_seq, omap_fmap_compose. exact IH.
Qed.

Lemma fst_imap_label {A B : Type} (f : nat → A → B) (l : list A) :
  fst <$> imap (λ i x, (i, f i x)) l = seq 0 (length l).
Proof.
  apply list_eq. intros i.
  rewrite list_lookup_fmap, list_lookup_imap.
  destruct (l !! i) as [x|] eqn:E; simpl.
  - symmetry. apply lookup_seq. split; [done|]. by eapply lookup_lt_Some.
  - symmetry. apply lookup_seq_ge. by apply lookup_ge_None.
Qed.

Lemma index_of_matrix matrix names :
  index (of_matrix matrix names) = seq 0 (length matrix).
Proof. apply (fst_imap_label (λ _ row, Some <$> row)). Qed.

Lemma index_of_vector vector :
  index (of_vector vector) = seq 0 (length vector).
Proof. apply (fst_imap_label (λ _ v, [Some v])). Qed.

Lemma length_index df : length (index df) = length (rows df).
Proof. unfold index. by rewrite length_fmap. Qed.

Lemma index_iloc df positions :
  index (iloc df positions) = omap (λ p, index df !! p) positions.
Proof.
  unfold index, iloc. simpl. rewrite list_fmap_omap.
  apply list_omap_ext. apply Forall2_same_length_lookup. split; [done|].
  intros i p q Hp Hq. assert (p = q) as -> by congruence.
  by rewrite list_lookup_fmap.
Qed.

(** Positions that partition [0 .. len(df)-1] select two frames whose
    labels together are the labels of [df], each once. *)
Lemma index_iloc_partition df train test :
  train ++ test ≡ₚ seq 0 (length (rows df)) →
  index (iloc df train) ++ index (iloc df test) ≡ₚ index df.
Proof.
  intros Hperm. rewrite !index_iloc, <- omap_app, Hperm.
  rewrite <- length_index. by rewrite omap_lookup_seq.
Qed.

Lemma index_iloc_aligned a b positions :
  index a = index b → index (iloc a positions) = index (iloc b positions).
Proof. intros H. by rewrite !index_iloc, H. Qed.

Lemma rows_iloc_subseteq df positions : rows (iloc df positions) ⊆ rows df.
Proof.
  intros r Hr. unfold iloc in Hr. simpl in Hr.
  apply list_elem_of_omap in Hr as (p & _ & Hp).
  eapply list_elem_of_lookup_2. exact Hp.
Qed.

Lemma length_rows_aligned a b :
  index a = index b → length (rows a) = length (rows b).
Proof. intros H. by rewrite <- !length_index, H. Qed.

Lemma train_test_split_Some rs g X Y :
  index X = index Y →
  ∃ r train test g',
    (shuffle_split r (length (rows X))).1 = (train, test)
    ∧ train_test_split rs g X Y
      = Some ((iloc X train, iloc X test, iloc Y train, iloc Y test), g').
Proof.
  intros Hidx. unfold train_test_split.
  rewrite decide_True by by apply length_rows_aligned.
  destruct rs as [s|].
  - destruct (shuffle_split (seed s) (length (rows X))) as [[tr te] g1] eqn:E.
    exists (seed s), tr, te, g. by rewrite E.
  - destruct (shuffle_split g (length (rows X))) as [[tr te] g1] eqn:E.
    exists g, tr, te, g1. by rewrite E.
Qed.

(** What [load_boston()] returns, as far as the notebooks read it. *)
Record bunch := mkBunch {
  data : list (list value);
  target : list value;
  feature_names : list string
}.

Record splits := mkSplits {
  X_train : DataFrame; X_val : DataFrame; X_test : DataFrame;
  Y_train : DataFrame; Y_val : DataFrame; Y_test : DataFrame
}.

Definition X_bos_pd (boston : bunch) : DataFrame :=
  of_matrix (data boston) (feature_names boston).

Definition Y_bos_pd (boston : bunch) : DataFrame :=
  of_vector (target boston).

Definition random_state (nb : notebook) : option Z :=
  match nb with
  | HighLevel => Some 1123%Z
  | LowLevel => None
  end.

(** Cell 4 of notebook [nb], run with the global generator in state [g]. *)
Definition split_cell (nb : notebook) (g : rng) (boston : bunch)
  : option (splits * rng) :=
  '((X_train, X_test, Y_train, Y_test), g1) ←
    train_test_split (random_state nb) g (X_bos_pd boston) (Y_bos_pd boston);
  '((X_train, X_val, Y_train, Y_val), g2) ←
    train_test_split (random_state nb) g1 X_train Y_train;
  Some (mkSplits X_train X_val X_test Y_train Y_val Y_test, g2).

(** The contract of the external splitter: the two lists of positions it
    returns for [n] rows hold every position of [0 .. n-1] exactly once
    (two disjoint subsets whose union is the input). *)
Definition splitter_partitions : Prop :=
  ∀ r n, (shuffle_split r n).1.1 ++ (shuffle_split r n).1.2 ≡ₚ seq 0 n.

Lemma partition_sets (a b c all : list nat) :
  a ++ b ++ c ≡ₚ all → NoDup all →
  list_to_set a ## (list_to_set b : gset nat)
  ∧ list_to_set a ## (list_to_set c : gset nat)
  ∧ list_to_set b ## (list_to_set c : gset nat)
  ∧ list_to_set a ∪ list_to_set b ∪ list_to_set c
    = (list_to_set all : gset nat).
Proof.
  intros Hperm Hnd. rewrite <- Hperm in Hnd.
  apply NoDup_app in Hnd as (_ & Hab & Hbc).
  apply NoDup_app in Hbc as (_ & Hbc & _).
  rewrite <- Hperm, !list_to_set_app_L.
  repeat split; [| | |by rewrite (assoc_L (∪))].
  - intros x Hx1 Hx2. apply elem_of_list_to_set in Hx1, Hx2.
    apply (Hab x Hx1). apply elem_of_app. by left.
  - intros x Hx1 Hx2. apply elem_of_list_to_set in Hx1, Hx2.
    apply (Hab x Hx1). apply elem_of_app. by right.
  - intros x Hx1 Hx2. apply elem_of_list_to_set in Hx1, Hx2.
    by apply (Hbc x Hx1).
Qed.

(** C6.  Under the hypothesis that every call of the external splitter
    partitions the rows it is given (and for a dataset with as many targets
    as feature rows), the two-stage split of either notebook succeeds, and
    the train, validation and test frames it produces are pairwise disjoint
    as sets of rows, their union is the set of rows of the loaded dataset,
    every row of the dataset is in exactly one of them once, the target
    frames carry the same rows as the feature frames, and every frame
    consists of rows of the loaded frame. *)
Theorem two_stage_split_partition (nb : notebook) (g : rng) (boston : bunch) :
  splitter_partitions →
  length (data boston) = length (target boston) →
  ∃ s g',
    split_cell nb g boston = Some (s, g')
    ∧ row_set (X_train s) ## row_set (X_val s)
    ∧ row_set (X_train s) ## row_set (X_test s)
    ∧ row_set (X_val s) ## row_set (X_test s)
    ∧ row_set (X_train s) ∪ row_set (X_val s) ∪ row_set (X_test s)
      = row_set (X_bos_pd boston)
    ∧ index (X_train s) ++ index (X_val s) ++ index (X_test s)
      ≡ₚ index (X_bos_pd boston)
    ∧ index (Y_train s) = index (X_train s)
    ∧ index (Y_val s) = index (X_val s)
    ∧ index (Y_test s) = index (X_test s)
    ∧ rows (X_train s) ⊆ rows (X_bos_pd boston)
    ∧ rows (X_val s) ⊆ rows (X_bos_pd boston)
    ∧ rows (X_test s) ⊆ rows (X_bos_pd boston)
    ∧ rows (Y_train s) ⊆ rows (Y_bos_pd boston)
    ∧ rows (Y_val s) ⊆ rows (Y_bos_pd boston)
    ∧ rows (Y_test s) ⊆ rows (Y_bos_pd boston).
Proof.
  intros Hpart Hlen.
  assert (index (X_bos_pd boston) = index (Y_bos_pd boston)) as Hidx.
  { unfold X_bos_pd, Y_bos_pd. by rewrite index_of_matrix, index_of_vector, Hlen. }
  destruct (train_test_split_Some (random_state nb) g _ _ Hidx)
    as (r1 & tr1 & te1 & g1 & Hdraw1 & Hcall1).
  pose proof (index_iloc_aligned _ _ tr1 Hidx) as Hidx1.
  destruct (train_test_split_Some (random_state nb) g1 _ _ Hidx1)
    as (r2 & tr2 & te2 & g2 & Hdraw2 & Hcall2).
  eexists _, g2. split.
  { unfold split_cell. rewrite Hcall1. simpl. rewrite Hcall2. reflexivity. }
  cbn [X_train X_val X_test Y_train Y_val Y_test].
  assert (tr1 ++ te1 ≡ₚ seq 0 (length (rows (X_bos_pd boston)))) as Hp1.
  { pose proof (Hpart r1 (length (rows (X_bos_pd boston)))) as H.
    by rewrite Hdraw1 in H. }
  assert (tr2 ++ te2
          ≡ₚ seq 0 (length (rows (iloc (X_bos_pd boston) tr1)))) as Hp2.
  { pose proof (Hpart r2 (length (rows (iloc (X_bos_pd boston) tr1)))) as H.
    by rewrite Hdraw2 in H. }
  apply index_iloc_partition in Hp1, Hp2.
  assert (index (iloc (iloc (X_bos_pd boston) tr1) tr2)
          ++ index (iloc (iloc (X_bos_pd boston) tr1) te2)
          ++ index (iloc (X_bos_pd boston) te1)
          ≡ₚ index (X_bos_pd boston)) as Hall.
  { rewrite (assoc_L (++)), Hp2. exact Hp1. }
  assert (NoDup (index (X_bos_pd boston))) as Hnd.
  { unfold X_bos_pd. rewrite index_of_matrix. apply NoDup_seq. }
  destruct (partition_sets _ _ _ _ Hall Hnd) as (D1 & D2 & D3 & U).
  split; [exact D1|]. split; [exact D2|]. split; [exact D3|].
  split; [exact U|]. split; [exact Hall|].
  split; [symmetry; by apply index_iloc_aligned|].
  split; [symmetry; by apply index_iloc_aligned|].
  split; [symmetry; by apply index_iloc_aligned|].
  repeat split;
    first [ apply rows_iloc_subseteq
          | etrans; apply rows_iloc_subseteq ].
Qed.

(** Cell 6: the two files, written below [dir]. *)
Definition save_cell (dir : FS.path) (s : splits) (fs : gmap FS.path FS.node)
  : FS.result (gmap FS.path FS.node) :=
  FS.bind
    (FS.write_file fs (FS.join dir "validation.csv")
       (to_csv (concat_columns (Y_val s) (X_val s)) false false))
    (λ fs1,
       FS.write_file fs1 (FS.join dir "train.csv")
         (to_csv (concat_columns (Y_train s) (X_train s)) false false)).

(** *** The two CSV files *)

(** The line expected for the dataset row labelled [l]: the target value,
    then the feature values in order, separated by commas. *)
Definition expected_line (boston : bunch) (l : nat) : string :=
  csv_line (fmt_cell (target boston !! l)
            :: (fmt <$> default [] (data boston !! l))).

(** A row of a target frame and a row of a feature frame that both are the
    dataset row of one label. *)
Definition same_sample (boston : bunch)
    (ry rx : nat * list (option value)) : Prop :=
  ∃ l t xs,
    target boston !! l = Some t ∧ data boston !! l = Some xs
    ∧ ry = (l, [Some t]) ∧ rx = (l, Some <$> xs).

Lemma same_sample_loaded boston :
  length (data boston) = length (target boston) →
  Forall2 (same_sample boston) (rows (Y_bos_pd boston)) (rows (X_bos_pd boston)).
Proof.
  intros Hlen. unfold X_bos_pd, Y_bos_pd, of_matrix, of_vector.
  cbn [rows]. apply Forall2_same_length_lookup. split.
  - by rewrite !length_imap.
  - intros i ry rx Hy Hx.
    rewrite list_lookup_imap in Hy. rewrite list_lookup_imap in Hx.
    destruct (target boston !! i) as [t|] eqn:Et; [|done].
    destruct (data boston !! i) as [xs|] eqn:Ex; [|done].
    simpl in Hy, Hx. simplify_eq. by exists i, t, xs.
Qed.

Lemma same_sample_iloc boston (Y X : DataFrame) positions :
  Forall2 (same_sample boston) (rows Y) (rows X) →
  Forall2 (same_sample boston)
    (rows (iloc Y positions)) (rows (iloc X positions)).
Proof.
  intros H. induction positions as [|p ps IH]; simpl; [constructor|].
  destruct (rows Y !! p) as [ry|] eqn:Ey.
  - destruct (Forall2_lookup_l _ _ _ _ _ H Ey) as (rx & Ex & Hs).
    rewrite Ex. by constructor.
  - assert (rows X !! p = None) as ->; [|exact IH].
    apply lookup_ge_None. apply lookup_ge_None in Ey.
    by rewrite <- (Forall2_length _ _ _ H).
Qed.

Lemma same_sample_index boston (ys xs : list (nat * list (option value))) :
  Forall2 (same_sample boston) ys xs → fst <$> ys = fst <$> xs.
Proof.
  induction 1 as [|ry rx ys xs (l & t & fs & _ & _ & -> & ->) _ IH];
    [done|]. rewrite !fmap_cons. by rewrite IH.
Qed.

Lemma same_sample_lines boston (ys xs : list (nat * list (option value))) :
  Forall2 (same_sample boston) ys xs →
  (λ r, csv_line ([] ++ (fmt_cell <$> r.2)))
    <$> zip_with (λ ra rb, (ra.1, ra.2 ++ rb.2)) ys xs
  = expected_line boston <$> (fst <$> xs).
Proof.
  induction 1 as [|ry rx ys xs (l & t & fs & Ht & Hfs & -> & ->) _ IH];
    [done|].
  cbn [zip_with]. rewrite !fmap_cons, IH. f_equal.
  unfold expected_line. cbn [fst snd]. rewrite Ht, Hfs. simpl.
  by rewrite <- list_fmap_compose.
Qed.

(** The text written for a target frame and a feature frame that hold the
    same samples. *)
Lemma to_csv_concat boston (Y X : DataFrame) :
  Forall2 (same_sample boston) (rows Y) (rows X) →
  to_csv (concat_columns Y X) false false
  = String.concat "" (expected_line boston <$> index X).
Proof.
  intros H. unfold to_csv, concat_columns. simpl.
  rewrite decide_True by (by apply (same_sample_index boston)).
  by rewrite (same_sample_lines boston).
Qed.

Lemma train_test_split_inv rs g X Y res g' :
  train_test_split rs g X Y = Some (res, g') →
  length (rows X) = length (rows Y)
  ∧ ∃ train test,
      res = (iloc X train, iloc X test, iloc Y train, iloc Y test).
Proof.
  unfold train_test_split. case_decide as Hlen; [|done].
  intros H. split; [done|].
  destruct rs as [sd|].
  - destruct (shuffle_split (seed sd) _) as [[tr te] g1].
    simpl in H. simplify_eq. eauto.
  - destruct (shuffle_split g _) as [[tr te] g1].
    simplify_eq. eauto.
Qed.

Lemma write_file_Ok (fs : gmap FS.path FS.node) dir name content :
  FS.node_at fs dir = Some FS.Dir →
  fs !! FS.join dir name ≠ Some FS.Dir →
  FS.write_file fs (FS.join dir name) content
  = FS.Ok (<[FS.join dir name := FS.File content]> fs).
Proof.
  intros Hdir Hfree. unfold FS.write_file, FS.join in *. simpl FS.parent.
  rewrite Hdir. simpl. by repeat case_match.
Qed.

Lemma split_cell_samples nb g boston s g' :
  split_cell nb g boston = Some (s, g') →
  Forall2 (same_sample boston) (rows (Y_train s)) (rows (X_train s))
  ∧ Forall2 (same_sample boston) (rows (Y_val s)) (rows (X_val s))
  ∧ Forall2 (same_sample boston) (rows (Y_test s)) (rows (X_test s)).
Proof.
  unfold split_cell. intros H.
  destruct (train_test_split (random_state nb) g _ _)
    as [[[[[Xtr1 Xte1] Ytr1] Yte1] g1]|] eqn:E1; [|done].
  simpl in H.
  destruct (train_test_split (random_state nb) g1 _ _)
    as [[[[[Xtr2 Xva] Ytr2] Yva] g2]|] eqn:E2; [|done].
  simpl in H. simplify_eq. cbn [X_train X_val X_test Y_train Y_val Y_test].
  apply train_test_split_inv in E1 as (Hlen & tr1 & te1 & E1).
  apply train_test_split_inv in E2 as (_ & tr2 & te2 & E2).
  simplify_eq.
  assert (Forall2 (same_sample boston)
            (rows (Y_bos_pd boston)) (rows (X_bos_pd boston))) as Hall.
  { apply same_sample_loaded. unfold X_bos_pd, Y_bos_pd in Hlen.
    cbn [rows of_matrix of_vector] in Hlen.
    by rewrite !length_imap in Hlen. }
  repeat split; repeat apply same_sample_iloc; exact Hall.
Qed.

(** C2.  In either notebook, once the split has produced its frames and
    the data directory exists, the save cell writes exactly two files below
    it, [validation.csv] and [train.csv], and changes nothing else.  The
    text of each is one line per row of the validation (training) frame, in
    the order of the frame, and nothing else: no header line and no index
    field.  The line of a row is the target value of that sample followed
    by its feature values in order, separated by commas. *)
Theorem csv_files_written (nb : notebook) (g g' : rng) (boston : bunch)
    (s : splits) (dir : FS.path) (fs : gmap FS.path FS.node) :
  split_cell nb g boston = Some (s, g') →
  FS.node_at fs dir = Some FS.Dir →
  fs !! FS.join dir "validation.csv" ≠ Some FS.Dir →
  fs !! FS.join dir "train.csv" ≠ Some FS.Dir →
  save_cell dir s fs
  = FS.Ok
      (<[FS.join dir "train.csv" :=
           FS.File (String.concat ""
                      (expected_line boston <$> index (X_train s)))]>
         (<[FS.join dir "validation.csv" :=
              FS.File (String.concat ""
                         (expected_line boston <$> index (X_val s)))]> fs))
  ∧ ∀ l, l ∈ index (X_train s) ++ index (X_val s) →
      ∃ t xs,
        target boston !! l = Some t ∧ data boston !! l = Some xs
        ∧ expected_line boston l
          = join (sep1 comma) (fmt t :: (fmt <$> xs)) +:+ sep1 newline.
Proof.
  intros Hsplit Hdir Hval Htrain.
  destruct (split_cell_samples _ _ _ _ _ Hsplit) as (Htr & Hva & _).
  split.
  - unfold save_cell.
    rewrite !(to_csv_concat boston) by done.
    rewrite write_file_Ok by done. cbn [FS.bind].
    apply write_file_Ok.
    + destruct dir as [|d dir]; [done|].
      cbn [FS.node_at] in *. rewrite lookup_insert_ne; [done|].
      unfold FS.join. intros Heq.
      apply (f_equal length) in Heq. simpl in Heq. lia.
    + rewrite lookup_insert_ne; [done|].
      unfold FS.join. intros [= ?].
  - intros l Hl.
    assert (∃ ry rx, same_sample boston ry rx ∧ rx.1 = l)
      as (ry & rx & (l' & t & xs & Ht & Hxs & -> & ->) & <-).
    { apply elem_of_app in Hl as [Hl|Hl];
        unfold index in Hl; apply list_elem_of_fmap in Hl as (rx & -> & Hrx);
        apply list_elem_of_lookup in Hrx as [i Hi].
      - destruct (Forall2_lookup_r _ _ _ _ _ Htr Hi) as (ry & _ & Hs). eauto.
      - destruct (Forall2_lookup_r _ _ _ _ _ Hva Hi) as (ry & _ & Hs). eauto. }
    exists t, xs. cbn [fst]. repeat split; [done..|].
    unfold expected_line. by rewrite Ht, Hxs.
Qed.

(** C7, as the notebooks are written.  Only the high-level notebook
    passes a seed, [random_state=1123], to its two splits: its train,
    validation and test frames do not depend on the state of the global
    random generator, so two runs on the same data produce the same frames,
    and the run leaves the global generator as it found it.  The low-level
    notebook passes no seed: each of its splits is the draw of the global
    generator in its current state. *)
Theorem seeded_split_reproducible :
  random_state HighLevel = Some 1123%Z
  ∧ random_state LowLevel = None
  ∧ (∀ g1 g2 boston,
       fst <$> split_cell HighLevel g1 boston
       = fst <$> split_cell HighLevel g2 boston)
  ∧ (∀ g boston s g', split_cell HighLevel g boston = Some (s, g') → g' = g)
  ∧ (∀ g X Y,
       length (rows X) = length (rows Y) →
       train_test_split (random_state LowLevel) g X Y
       = Some ((iloc X (shuffle_split g (length (rows X))).1.1,
                iloc X (shuffle_split g (length (rows X))).1.2,
                iloc Y (shuffle_split g (length (rows X))).1.1,
                iloc Y (shuffle_split g (length (rows X))).1.2),
               (shuffle_split g (length (rows X))).2)).
Proof.
  split; [done|]. split; [done|].
  assert (∀ g X Y,
            train_test_split (Some 1123%Z) g X Y
            = (λ res, (res.1, g))
                <$> train_test_split (Some 1123%Z) (seed 0) X Y) as Hseeded.
  { intros g X Y. unfold train_test_split. case_decide; [|done].
    by destruct (shuffle_split (seed 1123) _) as [[tr te] g0]. }
  split; [|split].
  - intros g1 g2 boston. unfold split_cell. cbn [random_state].
    rewrite (Hseeded g1), (Hseeded g2).
    destruct (train_test_split _ (seed 0) _ _)
      as [[[[[Xtr1 Xte1] Ytr1] Yte1] g0]|]; [|done].
    cbn. rewrite (Hseeded g1), (Hseeded g2).
    by destruct (train_test_split _ (seed 0) _ _)
      as [[[[[Xtr2 Xva] Ytr2] Yva] g0']|].
  - intros g boston s g'. unfold split_cell. cbn [random_state].
    rewrite (Hseeded g).
    destruct (train_test_split _ (seed 0) _ _)
      as [[[[[Xtr1 Xte1] Ytr1] Yte1] g0]|]; [|done].
    cbn. rewrite (Hseeded g).
    destruct (train_test_split _ (seed 0) _ _)
      as [[[[[Xtr2 Xva] Ytr2] Yva] g0']|]; [|done].
    cbn. by intros [= _ ->].
  - intros g X Y Hlen. unfold train_test_split. cbn [random_state].
    rewrite decide_True by done.
    by destruct (shuffle_split g _) as [[tr te] g0].
Qed.

End Frames.
End Frame.

(** *** A small dataset and a splitter to run the cells on *)

(** A deterministic stand-in for the external splitter: it cuts off a
    third of the positions as the test part, at the front or at the back
    according to the generator state, and advances the state. *)
Definition rotating_split (g n : nat) : (list nat * list nat) * nat :=
  ((if Nat.even g
    then (seq (n / 3) (n - n / 3), seq 0 (n / 3))
    else (seq 0 (n - n / 3), seq (n - n / 3) (n / 3))),
   S g).

Lemma rotating_split_partitions :
  Frame.splitter_partitions nat rotating_split.
Proof.
  intros g n. unfold rotating_split.
  assert (n / 3 ≤ n) as Hle by (apply Nat.Div0.div_le_upper_bound; lia).
  destruct (Nat.even g); cbn [fst snd].
  - rewrite Permutation_app_comm.
    pose proof (seq_app (n / 3) (n - n / 3) 0) as Happ.
    cbn [Nat.add] in Happ. rewrite <- Happ.
    by replace (n / 3 + (n - n / 3)) with n by lia.
  - pose proof (seq_app (n - n / 3) (n / 3) 0) as Happ.
    cbn [Nat.add] in Happ. rewrite <- Happ.
    by replace (n - n / 3 + n / 3) with n by lia.
Qed.

Definition sample : Frame.bunch Z :=
  Frame.mkBunch Z
    [[1; 2]; [3; 4]; [5; 6]; [7; 8]; [9; 10]; [11; 12]]%Z
    [10; 20; 30; 40; 50; 60]%Z
    ["CRIM"; "ZN"].

(** The state after the guard has created the data directory. *)
Definition fs_ready : gmap FS.path FS.node :=
  <[["boston"; "data"; "deployment_part2"] := FS.Dir]>
    (<[["data"; "deployment_part2"] := FS.Dir]> fs_fresh).

Lemma two_stage_split_partition_witness :
  Frame.splitter_partitions nat rotating_split
  ∧ length (Frame.data Z sample) = length (Frame.target Z sample)
  ∧ ∃ s g',
      Frame.split_cell Z nat Z.to_nat rotating_split LowLevel 0 sample
      = Some (s, g')
      ∧ Frame.row_set Z (Frame.X_train Z s)
        ∪ Frame.row_set Z (Frame.X_val Z s)
        ∪ Frame.row_set Z (Frame.X_test Z s)
        = Frame.row_set Z (Frame.X_bos_pd Z sample).
Proof.
  split; [exact rotating_split_partitions|]. split; [reflexivity|].
  destruct (Frame.two_stage_split_partition Z nat Z.to_nat rotating_split
              LowLevel 0 sample rotating_split_partitions eq_refl)
    as (s & g' & Hrun & _ & _ & _ & Hunion & _).
  exists s, g'. split; [exact Hrun | exact Hunion].
Defined.

Lemma csv_files_written_witness :
  ∃ s g',
    Frame.split_cell Z nat Z.to_nat rotating_split HighLevel 0 sample
    = Some (s, g')
    ∧ FS.node_at fs_ready (FS.data_dir cwd_tutorials) = Some FS.Dir
    ∧ fs_ready !! FS.join (FS.data_dir cwd_tutorials) "validation.csv"
      ≠ Some FS.Dir
    ∧ fs_ready !! FS.join (FS.data_dir cwd_tutorials) "train.csv"
      ≠ Some FS.Dir
    ∧ Frame.save_cell Z pretty (FS.data_dir cwd_tutorials) s fs_ready
      = FS.Ok
          (<[FS.join (FS.data_dir cwd_tutorials) "train.csv" :=
               FS.File (String.concat ""
                          (Frame.expected_line Z pretty sample
                             <$> Frame.index Z (Frame.X_train Z s)))]>
             (<[FS.join (FS.data_dir cwd_tutorials) "validation.csv" :=
                  FS.File (String.concat ""
                             (Frame.expected_line Z pretty sample
                                <$> Frame.index Z (Frame.X_val Z s)))]>
                fs_ready)).
Proof.
  eexists _, _. split; [vm_compute; reflexivity|].
  split; [vm_compute; reflexivity|].
  split; [vm_compute; discriminate|].
  split; [vm_compute; discriminate|].
  eapply (Frame.csv_files_written Z pretty nat Z.to_nat rotating_split
            HighLevel 0).
  - vm_compute. reflexivity.
  - vm_compute. reflexivity.
  - vm_compute. discriminate.
  - vm_compute. discriminate.
Defined.

(** The text of [validation.csv] for the sample, run by the high-level
    notebook: the one row labelled 3. *)
Example sample_validation_csv :
  (Frame.split_cell Z nat Z.to_nat rotating_split HighLevel 0 sample
     ≫= λ r, Some (Frame.to_csv Z pretty
                      (Frame.concat_columns Z
                         (Frame.Y_val Z r.1) (Frame.X_val Z r.1))
                      false false))
  = Some ("40,7,8" +:+ PyStr.sep1 PyStr.newline).
Proof. vm_compute. reflexivity. Qed.

(** C7 as stated fails for the low-level notebook: it passes no seed, and
    with a splitter that follows its generator two runs on the same data
    that start from different generator states produce different frames. *)
Lemma unseeded_split_counterexample :
  Frame.random_state LowLevel = None
  ∧ fst <$> Frame.split_cell Z nat Z.to_nat rotating_split LowLevel 0 sample
    ≠ fst <$> Frame.split_cell Z nat Z.to_nat rotating_split LowLevel 1 sample.
Proof. split; [reflexivity|]. vm_compute. discriminate. Qed.


(** ** Parsing the prediction blob

    Both notebooks end the inference step with
    [[
    Y_pred = np.fromstring(result, sep=',')
    ]]
    on the decoded body of the endpoint's response.  In text mode numpy
    repeats two steps until one of them fails ([array_from_text]): it reads
    one element and it skips one separator.

    - An element is read by [NumPyOS_ascii_strtod]: leading white space is
      skipped; an optional sign followed by [nan] or [inf], in any case,
      gives the special value; otherwise the text after the white space is
      read as a decimal numeral by [PyOS_string_to_double], the reader
      behind Python's [float], and rounded to the nearest double; and when
      there is no numeral the value is [-1.0] and only the white space
      counts as read.  The element is stored when at least one character
      was read ([fromstr_next_element]).
    - The separator [","] is white space followed by the comma
      ([swab_separator] puts the white space in front only).  It is found
      when text is left after the comma ([fromstr_skip_separator]).

    The result is an array of [float64]: the entries are binary64 numbers
    of the Standard Library's specification of IEEE 754, and a numeral
    becomes the double nearest to it, ties to even, with overflow to an
    infinity and gradual underflow to zero. *)

Module NumpyText.
Import PyStr.

Inductive digit := D0 | D1 | D2 | D3 | D4 | D5 | D6 | D7 | D8 | D9.

Definition digit_char (d : digit) : ascii :=
  match d with
  | D0 => "0" | D1 => "1" | D2 => "2" | D3 => "3" | D4 => "4"
  | D5 => "5" | D6 => "6" | D7 => "7" | D8 => "8" | D9 => "9"
  end%char.

Definition digit_val (d : digit) : N :=
  match d with
  | D0 => 0 | D1 => 1 | D2 => 2 | D3 => 3 | D4 => 4
  | D5 => 5 | D6 => 6 | D7 => 7 | D8 => 8 | D9 => 9
  end%N.

Definition digit_of (c : ascii) : option digit :=
  if Ascii.eqb c "0" then Some D0 else
  if Ascii.eqb c "1" then Some D1 else
  if Ascii.eqb c "2" then Some D2 else
  if Ascii.eqb c "3" then Some D3 else
  if Ascii.eqb c "4" then Some D4 else
  if Ascii.eqb c "5" then Some D5 else
  if Ascii.eqb c "6" then Some D6 else
  if Ascii.eqb c "7" then Some D7 else
  if Ascii.eqb c "8" then Some D8 else
  if Ascii.eqb c "9" then Some D9 else None.

(** C's [isspace]: space, tab, line feed, vertical tab, form feed,
    carriage return. *)
Definition is_space (c : ascii) : bool :=
  Ascii.eqb c " " || Ascii.eqb c "009" || Ascii.eqb c "010"
  || Ascii.eqb c "011" || Ascii.eqb c "012" || Ascii.eqb c "013".

(** [NumPyOS_ascii_tolower] and [NumPyOS_ascii_isalnum] *)
Definition to_lower (c : ascii) : ascii :=
  let n := N_of_ascii c in
  if (65 <=? n)%N && (n <=? 90)%N then ascii_of_N (n + 32) else c.

Definition is_alnum (c : ascii) : bool :=
  let n := N_of_ascii c in
  ((48 <=? n)%N && (n <=? 57)%N)
  || ((65 <=? n)%N && (n <=? 90)%N)
  || ((97 <=? n)%N && (n <=? 122)%N).

(** *** Decimal numbers and doubles *)

(** A decimal number as it is read: [(-1)^neg * mant * 10^exp10]. *)
Record dec := mkDec { neg : bool; mant : N; exp10 : Z }.

(** The rational number a decimal number stands for. *)
Definition to_Q (x : dec) : Q :=
  ((if neg x then -1 else 1) * inject_Z (Z.of_N (mant x))
   * (10 # 1) ^ exp10 x)%Q.

(** An entry of the array. *)
Definition float64 : Type := spec_float.

(** The quotient [num / den] with the sign [sg], rounded to the nearest
    binary64 number, ties to even. *)
Definition round64 (sg : bool) (num den : positive) : float64 :=
  let '(q, e, l) := SFdiv_core_binary 53 1024 (Zpos num) 0 (Zpos den) 0 in
  binary_round_aux 53 1024 sg q e l.

(** The double a decimal number is read as.  A zero keeps its sign. *)
Definition to_double (x : dec) : float64 :=
  match mant x with
  | N0 => S754_zero (neg x)
  | Npos m =>
      match exp10 x with
      | Z0 => round64 (neg x) m 1
      | Zpos k => round64 (neg x) (m * 10 ^ k) 1
      | Zneg k => round64 (neg x) m (10 ^ k)
      end
  end.

(** [-1.0], what [PyOS_string_to_double] returns when it fails. *)
Definition minus_one : float64 := S754_finite true 4503599627370496 (-52).

(** The rational number a double stands for, if it is finite. *)
Definition float_Q (x : float64) : option Q :=
  match x with
  | S754_zero _ => Some 0%Q
  | S754_finite s m e =>
      Some ((if s then -1 else 1) * inject_Z (Zpos m) * (2 # 1) ^ e)%Q
  | S754_infinity _ | S754_nan => None
  end.

(** The double [x] is exactly the decimal number [d]. *)
Definition exactly (x : float64) (d : dec) : bool :=
  match float_Q x with
  | Some q => Qeq_bool q (to_Q d)
  | None => false
  end.

(** *** Reading one element *)

(** Read a run of digits onto the number [acc], counting them. *)
Fixpoint read_digits (s : string) (acc : N) (count : nat)
  : N * nat * string :=
  match s with
  | String c s' =>
      match digit_of c with
      | Some d => read_digits s' (10 * acc + digit_val d)%N (S count)
      | None => (acc, count, s)
      end
  | EmptyString => (acc, count, s)
  end.

Fixpoint skip_while (P : ascii → bool) (s : string) : string :=
  match s with
  | String c s' => if P c then skip_while P s' else s
  | EmptyString => s
  end.

Definition skip_spaces (s : string) : string := skip_while is_space s.

Definition read_sign (s : string) : bool * string :=
  match s with
  | String c s' =>
      if Ascii.eqb c "-" then (true, s')
      else if Ascii.eqb c "+" then (false, s')
      else (false, s)
  | EmptyString => (false, s)
  end.

(** An exponent is read only when at least one digit follows the [e]. *)
Definition read_exponent (s : string) : Z * string :=
  match s with
  | String c s' =>
      if Ascii.eqb c "e" || Ascii.eqb c "E" then
        let '(sg, s1) := read_sign s' in
        let '(e, n, s2) := read_digits s1 0%N 0 in
        match n with
        | 0 => (0%Z, s)
        | S _ => ((if sg then - Z.of_N e else Z.of_N e)%Z, s2)
        end
      else (0%Z, s)
  | EmptyString => (0%Z, s)
  end.

(** [PyOS_string_to_double]: a sign, digits with an optional point and
    more digits, an optional exponent, and no white space in front.
    [None] when no digit is found. *)
Definition string_to_double (s : string) : option (dec * string) :=
  let '(sg, s1) := read_sign s in
  let '(m1, n1, s2) := read_digits s1 0%N 0 in
  let '(m2, n2, s3) :=
    match s2 with
    | String c s' =>
        if Ascii.eqb c "." then read_digits s' m1 0 else (m1, 0, s2)
    | EmptyString => (m1, 0, s2)
    end in
  match n1 + n2 with
  | 0 => None
  | S _ =>
      let '(e, s4) := read_exponent s3 in
      Some (mkDec sg m2 (e - Z.of_nat n2), s4)
  end.

(** [NumPyOS_ascii_strncasecmp(s, word, len(word)) == 0], with what
    follows the word. *)
Fixpoint strip_word (word s : string) : option string :=
  match word with
  | String a word' =>
      match s with
      | String c s' =>
          if Ascii.eqb (to_lower c) (to_lower a) then strip_word word' s'
          else None
      | EmptyString => None
      end
  | EmptyString => Some s
  end.

(** What may follow [nan]: a parenthesis with letters, digits and
    underscores, closed or not. *)
Definition payload_char (c : ascii) : bool := is_alnum c || Ascii.eqb c "_".

Definition skip_nan_payload (p : string) : string :=
  match p with
  | String c p1 =>
      if Ascii.eqb c "(" then
        let p2 := skip_while payload_char p1 in
        match p2 with
        | String c2 p3 => if Ascii.eqb c2 ")" then p3 else p2
        | EmptyString => p2
        end
      else p
  | EmptyString => p
  end.

(** [NumPyOS_ascii_strtod]: the value and the text that is left. *)
Definition ascii_strtod (s : string) : float64 * string :=
  let s0 := skip_spaces s in
  let '(sg, p) := read_sign s0 in
  match strip_word "nan" p with
  | Some p1 => (S754_nan, skip_nan_payload p1)
  | None =>
      match strip_word "inf" p with
      | Some p1 => (S754_infinity sg, default p1 (strip_word "inity" p1))
      | None =>
          match string_to_double s0 with
          | Some (x, rest) => (to_double x, rest)
          | None => (minus_one, s0)
          end
      end
  end.

(** [fromstr_next_element]: nothing is stored when nothing was read. *)
Definition next_element (s : string) : option (float64 * string) :=
  let '(x, rest) := ascii_strtod s in
  if String.length rest =? String.length s then None else Some (x, rest).

(** [fromstr_skip_separator] for the separator [","]: white space, then
    the comma.  [None] when the input ends before or with the comma, or
    when something else is found. *)
Definition skip_separator (s : string) : option string :=
  match skip_spaces s with
  | String c s' =>
      if Ascii.eqb c comma then
        match s' with
        | EmptyString => None
        | _ => Some s'
        end
      else None
  | EmptyString => None
  end.

(** The reading loop.  Every round reads at least one character, so one
    round per character of the input, and one more, is enough fuel. *)
Fixpoint read_loop (fuel : nat) (s : string) : list float64 :=
  match fuel with
  | 0 => []
  | S fuel' =>
      match next_element s with
      | None => []
      | Some (x, rest) =>
          x :: match skip_separator rest with
               | Some rest' => read_loop fuel' rest'
               | None => []
               end
      end
  end.

(** [np.fromstring(text, sep=',')] *)
Definition fromstring (text : string) : list float64 :=
  read_loop (S (String.length text)) text.

(** *** Decimal numerals *)

(** A decimal number as it is written: a sign, the digits before and after
    the point, and an optional exponent with its sign and digits. *)
Record numeral := mkNumeral {
  negative : bool;
  whole : list digit;
  fraction : option (list digit);
  exponent : option (bool * list digit)
}.

Definition frac_digits (n : numeral) : list digit :=
  default [] (fraction n).

(** Well-formed: a digit before or after the point, and a digit in the
    exponent when there is one. *)
Definition well_formed (n : numeral) : bool :=
  negb (Nat.eqb (length (whole n) + length (frac_digits n)) 0)
  && match exponent n with
     | Some (_, e) => negb (Nat.eqb (length e) 0)
     | None => true
     end.

Fixpoint render_digits (ds : list digit) : string :=
  match ds with
  | [] => ""
  | d :: ds' => String (digit_char d) (render_digits ds')
  end.

Definition render_sign (sg : bool) : string := if sg then "-" else "".

Definition render_fraction (f : option (list digit)) : string :=
  match f with
  | Some ds => "." +:+ render_digits ds
  | None => ""
  end.

Definition render_exponent (e : option (bool * list digit)) : string :=
  match e with
  | Some (sg, ds) => "e" +:+ render_sign sg +:+ render_digits ds
  | None => ""
  end.

Definition render (n : numeral) : string :=
  render_sign (negative n)
  +:+ render_digits (whole n)
  +:+ render_fraction (fraction n)
  +:+ render_exponent (exponent n).

Definition digits_val (ds : list digit) (acc : N) : N :=
  fold_left (λ a d, (10 * a + digit_val d)%N) ds acc.

Definition exponent_val (e : option (bool * list digit)) : Z :=
  match e with
  | Some (sg, ds) =>
      if sg then (- Z.of_N (digits_val ds 0%N))%Z
      else Z.of_N (digits_val ds 0%N)
  | None => 0%Z
  end.

(** The number a numeral denotes. *)
Definition value (n : numeral) : dec :=
  mkDec (negative n)
    (digits_val (frac_digits n) (digits_val (whole n) 0%N))
    (exponent_val (exponent n) - Z.of_nat (length (frac_digits n)))%Z.

(** The double nearest to the number a numeral denotes. *)
Definition double (n : numeral) : float64 := to_double (value n).

(** The response body: the numerals joined by commas. *)
Definition blob (ns : list numeral) : string :=
  join (sep1 comma) (render <$> ns).

(** *** Reading back what was rendered *)

Lemma app_cons c (s t : string) : String c s +:+ t = String c (s +:+ t).
Proof. reflexivity. Qed.

Lemma app_nil (t : string) : "" +:+ t = t.
Proof. reflexivity. Qed.

Lemma app_assoc (s t u : string) : (s +:+ t) +:+ u = s +:+ (t +:+ u).
Proof. induction s as [|c s IH]; [done|]. rewrite !app_cons. by f_equal. Qed.

Lemma app_nil_r (s : string) : s +:+ "" = s.
Proof. induction s as [|c s IH]; [done|]. rewrite app_cons. by f_equal. Qed.

Lemma length_app (s t : string) :
  String.length (s +:+ t) = String.length s + String.length t.
Proof.
  induction s as [|c s IH]; [done|].
  rewrite app_cons. cbn [String.length]. by rewrite IH.
Qed.

(** The first character of a string, if any, satisfies [P]. *)
Definition head_ok (P : ascii → bool) (s : string) : bool :=
  match s with
  | String c _ => P c
  | EmptyString => true
  end.

Definition not_digit (c : ascii) : bool :=
  match digit_of c with Some _ => false | None => true end.

Definition not_point (c : ascii) : bool := negb (Ascii.eqb c ".").

Definition not_e (c : ascii) : bool :=
  negb (Ascii.eqb c "e" || Ascii.eqb c "E").

(** A character at which a numeral surely ends: no digit, no point and
    no [e]. *)
Definition stop (c : ascii) : bool := not_digit c && not_point c && not_e c.

(** A character a numeral can start with after its sign: a digit or the
    point. *)
Definition numeric (c : ascii) : bool := negb (not_digit c && not_point c).

Lemma stop_parts rest :
  head_ok stop rest = true →
  head_ok not_digit rest = true
  ∧ head_ok not_point rest = true
  ∧ head_ok not_e rest = true.
Proof.
  destruct rest as [|c rest]; [done|]. cbn [head_ok]. unfold stop.
  intros [[? ?]%andb_true_iff ?]%andb_true_iff. done.
Qed.

Lemma digit_of_char d : digit_of (digit_char d) = Some d.
Proof. by destruct d. Qed.

(** A digit or a point is no white space, no sign and no letter. *)
Lemma numeric_char c :
  numeric c = true →
  is_space c = false
  ∧ Ascii.eqb c "-" = false ∧ Ascii.eqb c "+" = false
  ∧ Ascii.eqb (to_lower c) "n" = false
  ∧ Ascii.eqb (to_lower c) "i" = false.
Proof.
  unfold numeric, not_digit, not_point, digit_of. intros H.
  repeat match type of H with
  | context [Ascii.eqb c ?k] =>
      let E := fresh in
      destruct (Ascii.eqb c k) eqn:E;
      [apply Ascii.eqb_eq in E; subst c; by vm_compute|clear E]
  end.
  done.
Qed.

Lemma read_digits_stop rest acc count :
  head_ok not_digit rest = true →
  read_digits rest acc count = (acc, count, rest).
Proof.
  destruct rest as [|c rest]; simpl; [done|].
  unfold not_digit. by destruct (digit_of c).
Qed.

Lemma read_digits_render ds rest acc count :
  head_ok not_digit rest = true →
  read_digits (render_digits ds +:+ rest) acc count
  = (digits_val ds acc, count + length ds, rest).
Proof.
  intros Hrest. revert acc count.
  induction ds as [|d ds IH]; intros acc count.
  - simpl. rewrite read_digits_stop by done. by rewrite Nat.add_0_r.
  - cbn [render_digits]. rewrite app_cons. cbn [read_digits].
    rewrite digit_of_char, IH. cbn [length digits_val fold_left].
    f_equal. f_equal. lia.
Qed.

Lemma read_sign_render sg body :
  head_ok numeric body = true →
  read_sign (render_sign sg +:+ body) = (sg, body).
Proof.
  intros Hbody. destruct sg; [done|]. cbn [render_sign]. rewrite app_nil.
  destruct body as [|c body]; [done|].
  destruct (numeric_char c Hbody) as (_ & Hminus & Hplus & _).
  cbn [read_sign]. by rewrite Hminus, Hplus.
Qed.

Lemma head_ok_exponent P e rest :
  P "e"%char = true →
  head_ok P rest = true →
  head_ok P (render_exponent e +:+ rest) = true.
Proof. intros He Hrest. by destruct e as [[sg ds]|]. Qed.

Lemma read_exponent_render e rest :
  match e with Some (_, ds) => ds ≠ [] | None => True end →
  head_ok stop rest = true →
  read_exponent (render_exponent e +:+ rest) = (exponent_val e, rest).
Proof.
  intros Hwf Hrest. apply stop_parts in Hrest as (Hd & _ & He).
  destruct e as [[sg ds]|].
  - cbn [render_exponent].
    change (read_exponent (("e" +:+ render_sign sg +:+ render_digits ds) +:+ rest))
      with (let '(sg', s1) :=
              read_sign ((render_sign sg +:+ render_digits ds) +:+ rest) in
            let '(e, n, s2) := read_digits s1 0%N 0 in
            match n with
            | 0 => (0%Z, ("e" +:+ render_sign sg +:+ render_digits ds) +:+ rest)
            | S _ => ((if sg' then - Z.of_N e else Z.of_N e)%Z, s2)
            end).
    rewrite app_assoc.
    assert (read_sign (render_sign sg +:+ render_digits ds +:+ rest)
            = (sg, render_digits ds +:+ rest)) as ->.
    { destruct sg; [done|]. destruct ds as [|d ds]; [done|].
      by destruct d. }
    rewrite read_digits_render by done.
    destruct ds as [|d ds]; [done|]. simpl length. done.
  - cbn [render_exponent exponent_val]. rewrite app_nil.
    destruct rest as [|c rest]; [done|].
    cbn [head_ok] in He. unfold not_e in He. apply negb_true_iff in He.
    cbn [read_exponent]. by rewrite He.
Qed.

Lemma fraction_step f m tail :
  head_ok not_digit tail = true →
  head_ok not_point tail = true →
  match render_fraction f +:+ tail with
  | String c s' =>
      if Ascii.eqb c "." then read_digits s' m 0
      else (m, 0, render_fraction f +:+ tail)
  | EmptyString => (m, 0, render_fraction f +:+ tail)
  end
  = (digits_val (default [] f) m, length (default [] f), tail).
Proof.
  intros Hdigit Hpoint. destruct f as [ds|]; cbn [render_fraction default].
  - rewrite app_assoc, app_cons, app_nil. cbn [Ascii.eqb Bool.eqb].
    cbn. by rewrite read_digits_render.
  - rewrite app_nil. destruct tail as [|c tail]; [done|].
    cbn [head_ok] in Hpoint. unfold not_point in Hpoint.
    apply negb_true_iff in Hpoint. by rewrite Hpoint.
Qed.

(** After its sign a well-formed numeral goes on with a digit or a
    point. *)
Lemma body_head n tail :
  well_formed n = true →
  ∃ c t,
    render_digits (whole n) +:+ render_fraction (fraction n) +:+ tail
    = String c t
    ∧ numeric c = true.
Proof.
  destruct n as [sg w f e]. unfold well_formed, frac_digits.
  cbn [negative whole fraction exponent].
  intros [Hdig _]%andb_true_iff.
  apply negb_true_iff, Nat.eqb_neq in Hdig.
  destruct w as [|d w].
  - destruct f as [ds|]; [|done]. cbn [render_digits render_fraction].
    rewrite app_nil, app_assoc, app_cons. by eexists _, _.
  - cbn [render_digits]. rewrite app_cons.
    eexists _, _. split; [done|]. by destruct d.
Qed.

(** [PyOS_string_to_double] on a rendered numeral, followed by something
    that cannot continue it, reads exactly the numeral. *)
Lemma string_to_double_render n rest :
  well_formed n = true →
  head_ok stop rest = true →
  string_to_double (render n +:+ rest) = Some (value n, rest).
Proof.
  intros Hwf Hrest.
  destruct (body_head n (render_exponent (exponent n) +:+ rest) Hwf)
    as (c0 & t0 & Hbody & Hc0).
  destruct n as [sg w f e].
  unfold well_formed, render, value, frac_digits in *.
  cbn [negative whole fraction exponent] in *.
  apply andb_true_iff in Hwf as [Hdig Hexp].
  apply negb_true_iff, Nat.eqb_neq in Hdig.
  pose proof (stop_parts _ Hrest) as (Hrd & Hrp & _).
  rewrite !app_assoc.
  set (tail2 := render_exponent e +:+ rest) in *.
  assert (head_ok not_digit tail2 = true) as Hd2
    by (by apply head_ok_exponent).
  assert (head_ok not_point tail2 = true) as Hp2
    by (by apply head_ok_exponent).
  set (tail1 := render_fraction f +:+ tail2) in *.
  assert (head_ok not_digit tail1 = true) as Hd1.
  { subst tail1. by destruct f as [ds|]. }
  unfold string_to_double.
  rewrite read_sign_render by (by rewrite Hbody).
  rewrite read_digits_render by done.
  subst tail1. rewrite fraction_step by done.
  destruct (0 + length w + length (default [] f)) as [|k] eqn:Hk; [lia|].
  subst tail2. rewrite read_exponent_render; [done| |done].
  destruct e as [[sge ds]|]; [|done].
  apply negb_true_iff, Nat.eqb_neq in Hexp. by destruct ds.
Qed.

(** A rendered numeral starts with a character that is not white space,
    and is not empty. *)
Lemma render_head n :
  well_formed n = true →
  ∃ c s, render n = String c s ∧ is_space c = false.
Proof.
  intros Hwf. destruct (body_head n (render_exponent (exponent n)) Hwf)
    as (c & t & Hbody & Hc).
  unfold render. rewrite Hbody.
  destruct (negative n); cbn [render_sign].
  - by eexists _, _.
  - rewrite app_nil. eexists _, _. split; [done|].
    by destruct (numeric_char c Hc).
Qed.

Lemma skip_spaces_head c s :
  is_space c = false → skip_spaces (String c s) = String c s.
Proof. intros Hc. unfold skip_spaces. cbn [skip_while]. by rewrite Hc. Qed.

(** [NumPyOS_ascii_strtod] on a rendered numeral: neither white space nor
    [nan] nor [inf] is found, and the numeral is read and rounded. *)
Lemma ascii_strtod_render n rest :
  well_formed n = true →
  head_ok stop rest = true →
  ascii_strtod (render n +:+ rest) = (double n, rest).
Proof.
  intros Hwf Hrest. unfold ascii_strtod.
  destruct (render_head n Hwf) as (c & s & Hr & Hc).
  assert (skip_spaces (render n +:+ rest) = render n +:+ rest) as ->.
  { rewrite Hr, app_cons. by apply skip_spaces_head. }
  rewrite string_to_double_render by done.
  destruct (body_head n (render_exponent (exponent n) +:+ rest) Hwf)
    as (c0 & t0 & Hbody & Hc0).
  unfold render. rewrite !app_assoc.
  rewrite read_sign_render by (by rewrite Hbody).
  rewrite Hbody.
  destruct (numeric_char c0 Hc0) as (_ & _ & _ & Hn & Hi).
  cbn [strip_word].
  change (to_lower "n") with "n"%char. change (to_lower "i") with "i"%char.
  by rewrite Hn, Hi.
Qed.

Lemma next_element_render n rest :
  well_formed n = true →
  head_ok stop rest = true →
  next_element (render n +:+ rest) = Some (double n, rest).
Proof.
  intros Hwf Hrest. unfold next_element.
  rewrite ascii_strtod_render by done.
  destruct (render_head n Hwf) as (c & s & Hr & _).
  rewrite Hr, app_cons. cbn [String.length]. rewrite length_app.
  destruct (Nat.eqb_spec (String.length rest)
              (S (String.length s + String.length rest))); [lia|done].
Qed.

Lemma blob_cons n n' ns :
  blob (n :: n' :: ns) = render n +:+ String comma (blob (n' :: ns)).
Proof. reflexivity. Qed.

Lemma skip_separator_comma c t :
  skip_separator (String comma (String c t)) = Some (String c t).
Proof.
  unfold skip_separator. rewrite (skip_spaces_head comma) by done.
  by rewrite Ascii.eqb_refl.
Qed.

Lemma blob_head n ns rest :
  well_formed n = true →
  ∃ c t, blob (n :: ns) +:+ rest = String c t.
Proof.
  intros Hwf. destruct (render_head n Hwf) as (c & s & Hr & _).
  destruct ns as [|n' ns].
  - change (blob [n]) with (render n). rewrite Hr, app_cons. eauto.
  - rewrite blob_cons, Hr, !app_cons. eauto.
Qed.

(** Reading a blob that is followed by more text. *)
Lemma read_loop_blob_then ns rest f :
  ns ≠ [] →
  Forall (λ n, well_formed n = true) ns →
  head_ok stop rest = true →
  read_loop (length ns + f) (blob ns +:+ rest)
  = (double <$> ns)
    ++ match skip_separator rest with
       | Some r => read_loop f r
       | None => []
       end.
Proof.
  intros Hne Hwf Hrest. induction ns as [|n ns IH]; [done|].
  apply Forall_cons in Hwf as [Hn Hns].
  cbn [length Nat.add read_loop].
  destruct ns as [|n' ns].
  - change (blob [n]) with (render n).
    by rewrite next_element_render.
  - rewrite blob_cons, app_assoc, app_cons.
    rewrite next_element_render by done.
    pose proof Hns as Hns'. apply Forall_cons in Hns' as [Hn' _].
    destruct (blob_head n' ns rest Hn') as (c & t & Ht).
    rewrite Ht, skip_separator_comma. rewrite <- Ht.
    rewrite fmap_cons. cbn [app]. f_equal. by apply IH.
Qed.

Lemma read_loop_blob ns fuel :
  Forall (λ n, well_formed n = true) ns →
  length ns < fuel →
  read_loop fuel (blob ns) = double <$> ns.
Proof.
  intros Hwf Hfuel. destruct ns as [|n ns]; [by destruct fuel|].
  replace fuel with (length (n :: ns) + (fuel - length (n :: ns))) by lia.
  rewrite <- (app_nil_r (blob (n :: ns))).
  rewrite read_loop_blob_then by done.
  by rewrite List.app_nil_r.
Qed.

Lemma length_blob ns :
  Forall (λ n, well_formed n = true) ns →
  length ns ≤ String.length (blob ns).
Proof.
  induction ns as [|n ns IH]; intros Hwf; [done|].
  apply Forall_cons in Hwf as [Hn Hns].
  destruct (render_head n Hn) as (c & s & Hr & _).
  destruct ns as [|n' ns].
  - change (blob [n]) with (render n). rewrite Hr. simpl. lia.
  - rewrite blob_cons, length_app. cbn [String.length length] in *.
    specialize (IH Hns). rewrite Hr. cbn [String.length]. lia.
Qed.

Lemma forallb_well_formed ns :
  forallb well_formed ns = true → Forall (λ n, well_formed n = true) ns.
Proof.
  intros Hwf. apply Forall_forall. intros n Hn.
  rewrite forallb_forall in Hwf. apply Hwf. by apply list_elem_of_In.
Qed.

Lemma fromstring_blob_double ns :
  Forall (λ n, well_formed n = true) ns →
  fromstring (blob ns) = double <$> ns.
Proof.
  intros Hwf. unfold fromstring. apply read_loop_blob; [done|].
  pose proof (length_blob ns Hwf). lia.
Qed.

End NumpyText.

(** The parsing step of notebook [nb] on the decoded response body. *)
Definition Y_pred (nb : notebook) (result : string)
  : list NumpyText.float64 :=
  match nb with
  | HighLevel => NumpyText.fromstring result
  | LowLevel => NumpyText.fromstring result
  end.

(** C3, as the parsing step behaves.  For every response body that is a
    list of well-formed decimal numerals joined by commas, the parsing step
    of each notebook returns a vector with one [float64] entry per numeral,
    in the order of the numerals, and every entry is the double nearest to
    the number its numeral denotes (ties to even, an infinity on overflow,
    a subnormal number or a zero on underflow). *)
Theorem fromstring_blob (nb : notebook) (ns : list NumpyText.numeral) :
  forallb NumpyText.well_formed ns = true →
  Y_pred nb (NumpyText.blob ns)
  = (λ n, NumpyText.to_double (NumpyText.value n)) <$> ns.
Proof.
  intros Hwf%NumpyText.forallb_well_formed.
  pose proof (NumpyText.fromstring_blob_double ns Hwf) as Hread.
  by destruct nb.
Qed.

(** The numerals [24.5], [-0.75] and [3e-2]. *)
Definition sample_numerals : list NumpyText.numeral :=
  [ NumpyText.mkNumeral false [NumpyText.D2; NumpyText.D4]
      (Some [NumpyText.D5]) None;
    NumpyText.mkNumeral true [NumpyText.D0]
      (Some [NumpyText.D7; NumpyText.D5]) None;
    NumpyText.mkNumeral false [NumpyText.D3] None
      (Some (true, [NumpyText.D2])) ].

Example sample_blob : NumpyText.blob sample_numerals = "24.5,-0.75,3e-2".
Proof. reflexivity. Qed.

(** The three entries are the doubles [0x1.88p+4], [-0x1.8p-1] and
    [0x1.eb851eb851eb8p-6]. *)
Lemma fromstring_blob_witness :
  forallb NumpyText.well_formed sample_numerals = true
  ∧ Y_pred LowLevel "24.5,-0.75,3e-2"
    = [ S754_finite false 6896136929411072 (-48);
        S754_finite true 6755399441055744 (-53);
        S754_finite false 8646911284551352 (-58) ].
Proof.
  split; [reflexivity|].
  exact (fromstring_blob LowLevel sample_numerals eq_refl).
Defined.

(** The first two entries are exactly the numbers of their numerals,
    49/2 and -3/4; the third is not 3/100, which is no binary fraction. *)
Example sample_numerals_exact :
  zip_with NumpyText.exactly (Y_pred LowLevel "24.5,-0.75,3e-2")
    (NumpyText.value <$> sample_numerals)
  = [true; true; false].
Proof. vm_compute. reflexivity. Qed.

(** The numeral [9007199254740993], which is [2^53 + 1]. *)
Definition odd_numeral : NumpyText.numeral :=
  NumpyText.mkNumeral false
    [NumpyText.D9; NumpyText.D0; NumpyText.D0; NumpyText.D7; NumpyText.D1;
     NumpyText.D9; NumpyText.D9; NumpyText.D2; NumpyText.D5; NumpyText.D4;
     NumpyText.D7; NumpyText.D4; NumpyText.D0; NumpyText.D9; NumpyText.D9;
     NumpyText.D3]
    None None.

(** C3 as stated fails: the vector does not always hold exactly the
    numbers of the blob.  The response [9007199254740993] is read as the
    double [2^53], which is another number. *)
Lemma fromstring_blob_counterexample :
  NumpyText.well_formed odd_numeral = true
  ∧ NumpyText.blob [odd_numeral] = "9007199254740993"
  ∧ Y_pred HighLevel "9007199254740993"
    = [S754_finite false 4503599627370496 1]
  ∧ Y_pred LowLevel "9007199254740993"
    = [S754_finite false 4503599627370496 1]
  ∧ NumpyText.float_Q (S754_finite false 4503599627370496 1)
    = Some (9007199254740992 # 1)%Q
  ∧ NumpyText.exactly (S754_finite false 4503599627370496 1)
      (NumpyText.value odd_numeral)
    = false.
Proof. repeat split; vm_compute; reflexivity. Qed.

(** How the reader treats other input.  White space around a comma is
    skipped, and the empty body gives the empty vector. *)
Example fromstring_spaces :
  NumpyText.fromstring "1.5 , 2"
  = [S754_finite false 6755399441055744 (-52);
     S754_finite false 4503599627370496 (-51)].
Proof. vm_compute. reflexivity. Qed.

Example fromstring_empty : NumpyText.fromstring "" = [].
Proof. reflexivity. Qed.

(** Reading stops at a field that is not a number and does not start
    with white space. *)
Example fromstring_stops :
  NumpyText.fromstring "1.5,x,2" = [S754_finite false 6755399441055744 (-52)].
Proof. vm_compute. reflexivity. Qed.

(** A field of white space only is stored as [-1.0]: after a final
    comma followed by a space, and between two commas. *)
Example fromstring_blank_field :
  NumpyText.fromstring "1, " = [S754_finite false 4503599627370496 (-52);
                                NumpyText.minus_one]
  ∧ NumpyText.fromstring "1, ,2"
    = [S754_finite false 4503599627370496 (-52);
       NumpyText.minus_one;
       S754_finite false 4503599627370496 (-51)]
  ∧ NumpyText.fromstring "1," = [S754_finite false 4503599627370496 (-52)].
Proof. repeat split; vm_compute; reflexivity. Qed.

(** The special values are read in any case, and a number too large for
    a double becomes an infinity. *)
Example fromstring_special :
  NumpyText.fromstring "nan,-Inf,+INFINITY,NaN(x_1),1e400,-1e-400"
  = [S754_nan; S754_infinity true; S754_infinity false; S754_nan;
     S754_infinity false; S754_zero true].
Proof. vm_compute. reflexivity. Qed.


(** ** The notebooks as scripts

    Each notebook is run top to bottom, code cell after code cell.  A run
    is embedded as a computation that records every call the cells make into
    a library with an effect outside the kernel (loading, files, uploads,
    the SageMaker clients, plotting, the shell), with the arguments the
    source gives it, and that reads the clock where the source calls
    [gmtime()]. *)

Module Script.

(** *** Time stamps *)

(** What [gmtime()] returns, as far as [strftime] reads it. *)
Record struct_time := mk_time {
  tm_year : nat; tm_mon : nat; tm_mday : nat;
  tm_hour : nat; tm_min : nat; tm_sec : nat
}.

(** A field padded with a zero to two digits. *)
Definition two_digits (n : nat) : string :=
  if n <? 10 then "0" +:+ pretty n else pretty n.

(** The directives of [strftime] that the notebooks use. *)
Definition directive (d : ascii) (t : struct_time) : string :=
  if Ascii.eqb d "Y" then pretty (tm_year t)
  else if Ascii.eqb d "m" then two_digits (tm_mon t)
  else if Ascii.eqb d "d" then two_digits (tm_mday t)
  else if Ascii.eqb d "H" then two_digits (tm_hour t)
  else if Ascii.eqb d "M" then two_digits (tm_min t)
  else if Ascii.eqb d "S" then two_digits (tm_sec t)
  else String "%" (String d "").

(** [strftime(format, t)] *)
Fixpoint strftime (format : string) (t : struct_time) : string :=
  match format with
  | String c rest =>
      if Ascii.eqb c "%" then
        match rest with
        | String d rest' => directive d t +:+ strftime rest' t
        | EmptyString => "%"
        end
      else String c (strftime rest t)
  | EmptyString => ""
  end.

(** *** Calls *)

(** A Python value passed as a keyword argument.  A float is kept as the
    literal the source writes, which for the literals of the notebooks is
    also what [str] prints. *)
Inductive pyval :=
| PyInt (n : Z)
| PyFloat (literal : string)
| PyStr (s : string).

(** [str(v)] *)
Definition py_str (v : pyval) : string :=
  match v with
  | PyInt n => pretty n
  | PyFloat literal => literal
  | PyStr s => s
  end.

(** One entry of [InputDataConfig]. *)
Record channel := mk_channel {
  ChannelName : string;
  S3DataType : string;
  S3Uri : string;
  S3DataDistributionType : string;
  ContentType : string;
  CompressionType : string
}.

(** The dict [training_params] of the low-level notebook. *)
Record training_params := mk_training_params {
  RoleArn : string;
  TrainingImage : string;
  TrainingInputMode : string;
  S3OutputPath : string;
  InstanceCount : Z;
  InstanceType : string;
  VolumeSizeInGB : Z;
  MaxRuntimeInSeconds : Z;
  HyperParameters : list (string * string);
  InputDataConfig : list channel;
  TrainingJobName : string
}.

(** The one entry of [ProductionVariants]. *)
Record variant := mk_variant {
  VariantInstanceType : string;
  InitialVariantWeight : Z;
  InitialInstanceCount : Z;
  ModelName : string;
  VariantName : string
}.

Inductive call :=
(* both notebooks *)
| Session_new
| get_execution_role
| load_boston
| train_test_split (test_size : string) (random_state : option Z)
| makedirs_unless_exists (path : string)
| to_csv (path : string) (header index : bool)
| upload_data (path key_prefix : string)
| np_fromstring (sep : string)
| plt_scatter
| plt_xlabel (label : string)
| plt_ylabel (label : string)
| plt_title (label : string)
| shell (command : string)
(* high-level notebook: the estimator and the predictor *)
| Estimator (image role : string) (train_instance_count : Z)
    (train_instance_type output_path : string)
| set_hyperparameters (kwargs : list (string * pyval))
| fit (inputs : list (string * (string * string)))
| deploy (endpoint : string) (initial_instance_count : Z)
    (instance_type : string)
| predict (endpoint content_type : string)
| predictor_delete_endpoint (endpoint : string)
(* low-level notebook: the SageMaker clients *)
| create_training_job (params : training_params)
| logs_for_job (job_name : string)
| describe_training_job (job_name : string)
| create_model (model_name execution_role image model_data_url : string)
| create_endpoint_config (config_name : string)
    (production_variants : list variant)
| create_endpoint (endpoint_name config_name : string)
| wait_for_endpoint (endpoint_name : string)
| invoke_endpoint (endpoint_name content_type : string)
| delete_endpoint (endpoint_name : string).

(** *** The environment and the script monad *)

(** What a run reads from outside: the clock (the reading of the [k]-th
    call of [gmtime()]), the session's region, bucket and role, the image
    name [get_image_uri] computes, the name the estimator gives the
    training job that [fit] starts, and where a training job leaves its
    model. *)
Record env := mk_env {
  clock : nat → struct_time;
  boto_region_name : string;
  default_bucket : string;
  role : string;
  get_image_uri : string → string → string → string;
  estimator_job_name : string;
  model_artifacts : string → string
}.

Record world := mk_world {
  ticks : nat;
  log : list call
}.

Definition script (A : Type) : Type := world → A * world.

#[export] Instance script_ret : MRet script := λ A a w, (a, w).

#[export] Instance script_bind : MBind script :=
  λ A B k m w, let '(a, w') := m w in k a w'.

(** Record a call. *)
Definition emit (c : call) : script unit :=
  λ w, (tt, mk_world (ticks w) (log w ++ [c])).

(** [gmtime()]: the next reading of the clock. *)
Definition gmtime (e : env) : script struct_time :=
  λ w, (clock e (ticks w), mk_world (S (ticks w)) (log w)).

(** [os.path.join(dir, name)] *)
Definition path_join (dir name : string) : string := dir +:+ "/" +:+ name.

(** [session.upload_data(path, key_prefix=prefix)] uploads the file and
    returns its S3 URI. *)
Definition session_upload_data (e : env) (dir name key_prefix : string)
  : script string :=
  emit (upload_data (path_join dir name) key_prefix);;
  mret ("s3://" +:+ default_bucket e +:+ "/" +:+ key_prefix +:+ "/" +:+ name).

Definition timestamp_format : string := "%Y-%m-%d-%H-%M-%S".

(** The cells that both notebooks share but for the seed, the storage
    prefix and nothing else: cells 2 to 7. *)
Definition prepare (e : env) (random_state : option Z) (prefix : string)
  : script (string * string) :=
  (* cell 2 *)
  emit Session_new;;
  emit get_execution_role;;
  (* cell 3 *)
  emit load_boston;;
  (* cell 4 *)
  emit (train_test_split "0.33" random_state);;
  emit (train_test_split "0.33" random_state);;
  (* cell 5 *)
  let data_dir := "../data/boston" in
  emit (makedirs_unless_exists data_dir);;
  (* cell 6 *)
  emit (to_csv (path_join data_dir "validation.csv") false false);;
  emit (to_csv (path_join data_dir "train.csv") false false);;
  (* cell 7 *)
  val_location ← session_upload_data e data_dir "validation.csv" prefix;
  train_location ← session_upload_data e data_dir "train.csv" prefix;
  mret (val_location, train_location).

(** The cells that close both notebooks: the plot, and after the deletion
    of the endpoint the clean-up of the data directory. *)
Definition plot : script unit :=
  emit plt_scatter;;
  emit (plt_xlabel "Median Price");;
  emit (plt_ylabel "Predicted Price");;
  emit (plt_title "Median Price vs Predicted Price").

Definition clean_up : script unit :=
  emit (shell "rm $data_dir/*");;
  emit (shell "rmdir $data_dir").

(** *** The high-level notebook *)

Definition high_level (e : env) : script unit :=
  let prefix := "boston-xgboost-deploy-hl" in
  '(val_location, train_location) ← prepare e (Some 1123%Z) prefix;
  (* cell 8 *)
  let container := get_image_uri e (boto_region_name e) "xgboost" "0.90-1" in
  emit (Estimator container (role e) 1 "ml.p2.xlarge"
          ("s3://" +:+ default_bucket e +:+ "/" +:+ prefix +:+ "/output"));;
  (* cell 9 *)
  emit (set_hyperparameters
          [("max_depth", PyInt 5); ("eta", PyFloat "0.2");
           ("gamma", PyInt 4); ("min_child_weight", PyInt 6);
           ("subsample", PyFloat "0.8"); ("objective", PyStr "reg:linear");
           ("early_stopping_rounds", PyInt 10); ("num_round", PyInt 200)]);;
  (* cell 10 *)
  let s3_input_train := (train_location, "csv") in
  let s3_input_validation := (val_location, "csv") in
  emit (fit [("train", s3_input_train); ("validation", s3_input_validation)]);;
  (* cell 11: the predictor is bound to the endpoint that deploy creates,
     which without an explicit name is named after the training job *)
  let xgb_predictor := estimator_job_name e in
  emit (deploy xgb_predictor 1 "ml.t2.medium");;
  (* cell 12 *)
  emit (predict xgb_predictor "text/csv");;
  emit (np_fromstring ",");;
  (* cell 13 *)
  plot;;
  (* cell 14 *)
  emit (predictor_delete_endpoint xgb_predictor);;
  (* cell 15 *)
  clean_up.

(** *** The low-level notebook *)

Definition low_level (e : env) : script unit :=
  let prefix := "boston-xgboost-deploy-ll" in
  '(val_location, train_location) ← prepare e None prefix;
  (* cell 8 *)
  let container := get_image_uri e (boto_region_name e) "xgboost" "0.90-1" in
  let input_channel name location :=
    mk_channel name "S3Prefix" location "FullyReplicated" "csv" "None" in
  let training_params job_name :=
    mk_training_params (role e) container "File"
      ("s3://" +:+ default_bucket e +:+ "/" +:+ prefix +:+ "/output")
      1 "ml.m4.xlarge" 5 86400
      [("max_depth", "5"); ("eta", "0.2"); ("gamma", "4");
       ("min_child_weight", "6"); ("subsample", "0.8");
       ("objective", "reg:linear"); ("early_stopping_rounds", "10");
       ("num_round", "200")]
      [input_channel "train" train_location;
       input_channel "validation" val_location]
      job_name in
  (* cell 9 *)
  now ← gmtime e;
  let training_job_name := "boston-xgboost-" +:+ strftime timestamp_format now in
  emit (create_training_job (training_params training_job_name));;
  (* cell 10 *)
  emit (logs_for_job training_job_name);;
  (* cell 11 *)
  emit (describe_training_job training_job_name);;
  let model_artifacts := model_artifacts e training_job_name in
  (* cell 12 *)
  let model_name := training_job_name +:+ "-model" in
  emit (create_model model_name (role e) container model_artifacts);;
  (* cell 13 *)
  let model_name := "boston-xgboost-2019-11-09-14-20-03-model" in
  (* cell 14 *)
  now ← gmtime e;
  let endpoint_config_name :=
    "boston-xgboost-endpoint-config-" +:+ strftime timestamp_format now in
  emit (create_endpoint_config endpoint_config_name
          [mk_variant "ml.m4.xlarge" 1 1 model_name "AllTraffic"]);;
  (* cell 15 *)
  now ← gmtime e;
  let endpoint_name :=
    "boston-xgboost-endpoint-" +:+ strftime timestamp_format now in
  emit (create_endpoint endpoint_name endpoint_config_name);;
  (* cell 16 *)
  emit (wait_for_endpoint endpoint_name);;
  (* cells 17 and 18: the payload is built and sent *)
  emit (invoke_endpoint endpoint_name "text/csv");;
  emit (np_fromstring ",");;
  (* cell 19 *)
  plot;;
  (* cell 20 *)
  emit (delete_endpoint endpoint_name);;
  (* cell 21 *)
  clean_up.

Definition script_of (nb : notebook) : env → script unit :=
  match nb with
  | HighLevel => high_level
  | LowLevel => low_level
  end.

(** The calls of a run of notebook [nb], in order. *)
Definition run (nb : notebook) (e : env) : list call :=
  log (script_of nb e (mk_world 0 [])).2.

End Script.

(** *** The steps of a run *)

Inductive stage :=
| Load | Split | Serialize | Upload | Train | Deploy | Infer | Plot | Teardown.

#[export] Instance stage_eq_dec : EqDecision stage.
Proof. solve_decision. Defined.

(** The position of a step in the order of the specification. *)
Definition rank (s : stage) : nat :=
  match s with
  | Load => 0 | Split => 1 | Serialize => 2 | Upload => 3 | Train => 4
  | Deploy => 5 | Infer => 6 | Plot => 7 | Teardown => 8
  end.

Definition pipeline : list stage :=
  [Load; Split; Serialize; Upload; Train; Deploy; Infer; Plot; Teardown].

(** The step a call belongs to.  Obtaining the session and the role, the
    preamble of both notebooks, belongs to none.  The guard of the data
    directory is part of writing the files; building the model is part of
    the deployment (in the high-level notebook [deploy] does it); the
    clean-up of the local files after the deletion of the endpoint is part
    of the teardown. *)
Definition stage_of (c : Script.call) : option stage :=
  match c with
  | Script.Session_new | Script.get_execution_role => None
  | Script.load_boston => Some Load
  | Script.train_test_split _ _ => Some Split
  | Script.makedirs_unless_exists _ | Script.to_csv _ _ _ => Some Serialize
  | Script.upload_data _ _ => Some Upload
  | Script.Estimator _ _ _ _ _ | Script.set_hyperparameters _
  | Script.fit _ | Script.create_training_job _ | Script.logs_for_job _
  | Script.describe_training_job _ => Some Train
  | Script.deploy _ _ _ | Script.create_model _ _ _ _
  | Script.create_endpoint_config _ _ | Script.create_endpoint _ _
  | Script.wait_for_endpoint _ => Some Deploy
  | Script.predict _ _ | Script.invoke_endpoint _ _
  | Script.np_fromstring _ => Some Infer
  | Script.plt_scatter | Script.plt_xlabel _ | Script.plt_ylabel _
  | Script.plt_title _ => Some Plot
  | Script.predictor_delete_endpoint _ | Script.delete_endpoint _
  | Script.shell _ => Some Teardown
  end.

(** A sequence of steps with every run of equal neighbours collapsed to
    one. *)
Fixpoint collapse (l : list stage) : list stage :=
  match l with
  | [] => []
  | x :: l' =>
      match collapse l' with
      | [] => [x]
      | y :: r => if decide (x = y) then y :: r else x :: y :: r
      end
  end.

Lemma StronglySorted_lookup {A : Type} (R : A → A → Prop) (l : list A) :
  StronglySorted R l →
  ∀ i j a b, i < j → l !! i = Some a → l !! j = Some b → R a b.
Proof.
  induction 1 as [|x l Hl IH Hx]; intros i j a b Hij Ha Hb; [done|].
  destruct j as [|j]; [lia|]. simpl in Hb.
  destruct i as [|i]; simpl in Ha.
  - simplify_eq. rewrite Forall_forall in Hx. apply Hx.
    by eapply list_elem_of_lookup_2.
  - apply (IH i j); [lia|done..].
Qed.

(** Evaluate a run to the list of its calls, leaving the strings alone. *)
Ltac run_script :=
  lazy [Script.run Script.script_of Script.high_level Script.low_level
        Script.prepare Script.plot Script.clean_up Script.session_upload_data
        Script.emit Script.gmtime Script.log Script.ticks
        mbind mret Script.script_bind Script.script_ret app fst snd].

Ltac stages := lazy [omap list_omap stage_of].

(** C4.  Each notebook runs as a linear script: after the preamble that
    obtains the session and the role, every call belongs to one of the nine
    steps, the steps occur in exactly the order load, split, serialize,
    upload, train, deploy, infer, plot, teardown, each as one unbroken run
    of calls (none is repeated), and no call of a step comes before a call
    of an earlier step. *)
Theorem linear_script (nb : notebook) (e : Script.env) :
  ∃ steps,
    Script.run nb e = [Script.Session_new; Script.get_execution_role] ++ steps
    ∧ Forall (λ c, is_Some (stage_of c)) steps
    ∧ collapse (omap stage_of steps) = pipeline
    ∧ ∀ i j a b,
        i < j →
        omap stage_of steps !! i = Some a →
        omap stage_of steps !! j = Some b →
        rank a ≤ rank b.
Proof.
  destruct nb.
  - eexists. split; [run_script; reflexivity|]. split; [|split].
    + repeat constructor; by eexists.
    + reflexivity.
    + apply (StronglySorted_lookup (λ a b, rank a ≤ rank b)). stages.
      repeat (constructor; [|repeat constructor; cbn [rank]; lia]).
      constructor.
  - eexists. split; [run_script; reflexivity|]. split; [|split].
    + repeat constructor; by eexists.
    + reflexivity.
    + apply (StronglySorted_lookup (λ a b, rank a ≤ rank b)). stages.
      repeat (constructor; [|repeat constructor; cbn [rank]; lia]).
      constructor.
Qed.

(** *** The endpoint *)

(** What a call does to an endpoint.  In the high-level notebook [deploy]
    creates the endpoint its predictor is bound to, [predict] invokes that
    endpoint and the predictor's [delete_endpoint] deletes it. *)
Inductive endpoint_event :=
| Created (name : string)
| Invoked (name : string)
| Deleted (name : string).

Definition endpoint_effect (c : Script.call) : option endpoint_event :=
  match c with
  | Script.deploy name _ _ | Script.create_endpoint name _ =>
      Some (Created name)
  | Script.predict name _ | Script.invoke_endpoint name _ =>
      Some (Invoked name)
  | Script.predictor_delete_endpoint name | Script.delete_endpoint name =>
      Some (Deleted name)
  | _ => None
  end.

(** The time stamp of the [k]-th reading of the clock. *)
Definition stamp (e : Script.env) (k : nat) : string :=
  Script.strftime Script.timestamp_format (Script.clock e k).

(** The name of the endpoint a run creates. *)
Definition endpoint_name (nb : notebook) (e : Script.env) : string :=
  match nb with
  | HighLevel => Script.estimator_job_name e
  | LowLevel => "boston-xgboost-endpoint-" +:+ stamp e 2
  end.

(** C5.  In each notebook the calls that touch an endpoint are, in this
    order and no others: the creation of the endpoint, one invocation of
    that endpoint, and the deletion of that endpoint.  So the deletion
    targets the endpoint the script created and invoked, nothing is invoked
    after the deletion, and no other endpoint is deleted. *)
Theorem endpoint_lifecycle (nb : notebook) (e : Script.env) :
  omap endpoint_effect (Script.run nb e)
  = [Created (endpoint_name nb e);
     Invoked (endpoint_name nb e);
     Deleted (endpoint_name nb e)].
Proof. destruct nb; run_script; reflexivity. Qed.

(** *** Resource names of the low-level notebook *)

Inductive resource :=
| TrainingJob
| Model
| EndpointConfig
| Endpoint.

(** The remote resource a call creates, with the name it is given. *)
Definition created_resource (c : Script.call) : option (resource * string) :=
  match c with
  | Script.create_training_job params =>
      Some (TrainingJob, Script.TrainingJobName params)
  | Script.create_model name _ _ _ => Some (Model, name)
  | Script.create_endpoint_config name _ => Some (EndpointConfig, name)
  | Script.create_endpoint name _ => Some (Endpoint, name)
  | _ => None
  end.

Lemma strftime_timestamp (t : Script.struct_time) :
  Script.strftime Script.timestamp_format t
  = pretty (Script.tm_year t)
    +:+ "-" +:+ Script.two_digits (Script.tm_mon t)
    +:+ "-" +:+ Script.two_digits (Script.tm_mday t)
    +:+ "-" +:+ Script.two_digits (Script.tm_hour t)
    +:+ "-" +:+ Script.two_digits (Script.tm_min t)
    +:+ "-" +:+ Script.two_digits (Script.tm_sec t).
Proof.
  lazy [Script.strftime Script.timestamp_format Script.directive
        Ascii.eqb Bool.eqb].
  by rewrite NumpyText.app_nil_r.
Qed.

(** C10.  In the low-level notebook the remote resources are created in
    the order training job, model, endpoint configuration, endpoint.  The
    names of the training job, the endpoint configuration and the endpoint
    are the prefixes [boston-xgboost-], [boston-xgboost-endpoint-config-]
    and [boston-xgboost-endpoint-], each followed by the time stamp
    (year-month-day-hour-minute-second) of the clock at the moment the name
    is made; the model is created under the name of the training job with
    [-model] appended. *)
Theorem low_level_resource_names (e : Script.env) :
  omap created_resource (Script.run LowLevel e)
  = [(TrainingJob, "boston-xgboost-" +:+ stamp e 0);
     (Model, ("boston-xgboost-" +:+ stamp e 0) +:+ "-model");
     (EndpointConfig, "boston-xgboost-endpoint-config-" +:+ stamp e 1);
     (Endpoint, "boston-xgboost-endpoint-" +:+ stamp e 2)]
  ∧ ∀ k,
      stamp e k
      = pretty (Script.tm_year (Script.clock e k))
        +:+ "-" +:+ Script.two_digits (Script.tm_mon (Script.clock e k))
        +:+ "-" +:+ Script.two_digits (Script.tm_mday (Script.clock e k))
        +:+ "-" +:+ Script.two_digits (Script.tm_hour (Script.clock e k))
        +:+ "-" +:+ Script.two_digits (Script.tm_min (Script.clock e k))
        +:+ "-" +:+ Script.two_digits (Script.tm_sec (Script.clock e k)).
Proof.
  split.
  - run_script. reflexivity.
  - intros k. apply strftime_timestamp.
Qed.

(** A session in region [eu-west-1] whose clock reads 14:20:03, 14:31:47
    and 14:31:52 on 9 November 2019. *)
Definition session_2019 : Script.env :=
  Script.mk_env
    (λ k, match k with
          | 0 => Script.mk_time 2019 11 9 14 20 3
          | 1 => Script.mk_time 2019 11 9 14 31 47
          | _ => Script.mk_time 2019 11 9 14 31 52
          end)
    "eu-west-1" "sagemaker-eu-west-1-000000000000"
    "arn:aws:iam::000000000000:role/SageMakerRole"
    (λ region repo version, repo +:+ ":" +:+ version +:+ "@" +:+ region)
    "sagemaker-xgboost-2019-11-09-13-57-00-914"
    (λ job, "s3://sagemaker-eu-west-1-000000000000/boston-xgboost-deploy-ll/output/"
            +:+ job +:+ "/output/model.tar.gz").

Example session_2019_names :
  omap created_resource (Script.run LowLevel session_2019)
  = [(TrainingJob, "boston-xgboost-2019-11-09-14-20-03");
     (Model, "boston-xgboost-2019-11-09-14-20-03-model");
     (EndpointConfig, "boston-xgboost-endpoint-config-2019-11-09-14-31-47");
     (Endpoint, "boston-xgboost-endpoint-2019-11-09-14-31-52")].
Proof. vm_compute. reflexivity. Qed.

(** *** What the two notebooks configure *)

(** The settings a call carries, read off its arguments.  The estimator
    of the high-level notebook sends its hyperparameters as the strings
    [str] gives. *)
Definition training_image (c : Script.call) : list string :=
  match c with
  | Script.Estimator image _ _ _ _ => [image]
  | Script.create_training_job params => [Script.TrainingImage params]
  | _ => []
  end.

Definition hyperparameters (c : Script.call) : list (string * string) :=
  match c with
  | Script.set_hyperparameters kwargs =>
      (λ kv, (kv.1, Script.py_str kv.2)) <$> kwargs
  | Script.create_training_job params => Script.HyperParameters params
  | _ => []
  end.

(** The preparation of the CSV files: the sizes of the splits, the guard
    and the two writes (the seed of the splits is [random_seed] below). *)
Definition csv_preparation (c : Script.call) : list Script.call :=
  match c with
  | Script.train_test_split test_size _ =>
      [Script.train_test_split test_size None]
  | Script.makedirs_unless_exists _ | Script.to_csv _ _ _ => [c]
  | _ => []
  end.

Definition training_instances (c : Script.call) : list (Z * string) :=
  match c with
  | Script.Estimator _ _ count type _ => [(count, type)]
  | Script.create_training_job params =>
      [(Script.InstanceCount params, Script.InstanceType params)]
  | _ => []
  end.

Definition endpoint_instances (c : Script.call) : list (Z * string) :=
  match c with
  | Script.deploy _ count type => [(count, type)]
  | Script.create_endpoint_config _ variants =>
      (λ v, (Script.InitialInstanceCount v, Script.VariantInstanceType v))
        <$> variants
  | _ => []
  end.

Definition storage_prefix (c : Script.call) : list string :=
  match c with
  | Script.upload_data _ key_prefix => [key_prefix]
  | _ => []
  end.

Definition random_seed (c : Script.call) : list (option Z) :=
  match c with
  | Script.train_test_split _ random_state => [random_state]
  | _ => []
  end.

(** The layer of the client API a call belongs to, for the calls that
    train, deploy, invoke and delete. *)
Inductive api_layer :=
| EstimatorObject
| JobDescription.

Definition layer (c : Script.call) : list api_layer :=
  match c with
  | Script.Estimator _ _ _ _ _ | Script.set_hyperparameters _ | Script.fit _
  | Script.deploy _ _ _ | Script.predict _ _
  | Script.predictor_delete_endpoint _ => [EstimatorObject]
  | Script.create_training_job _ | Script.logs_for_job _
  | Script.describe_training_job _ | Script.create_model _ _ _ _
  | Script.create_endpoint_config _ _ | Script.create_endpoint _ _
  | Script.wait_for_endpoint _ | Script.invoke_endpoint _ _
  | Script.delete_endpoint _ => [JobDescription]
  | _ => []
  end.

(** All settings of one kind in a run. *)
Definition settings {A : Type} (f : Script.call → list A) (nb : notebook)
    (e : Script.env) : list A :=
  Script.run nb e ≫= f.

Ltac read_settings :=
  unfold settings; run_script;
  lazy [mbind list_bind app fmap list_fmap fst snd
        training_image hyperparameters csv_preparation training_instances
        endpoint_instances storage_prefix random_seed layer
        Script.TrainingImage Script.HyperParameters Script.InstanceCount
        Script.InstanceType Script.InitialInstanceCount
        Script.VariantInstanceType Script.py_str].

(** C1, as the notebooks are written.  The two notebooks call different
    layers of the client API and differ in the seed of the splits (1123 in
    the high-level notebook, none in the low-level one).  They configure
    the same training container and algorithm, the same hyperparameter
    values, the same preparation of the CSV files and the same instance
    counts (one for training, one for the endpoint).  They differ in the
    instance type for training ([ml.p2.xlarge] against [ml.m4.xlarge]), in
    the instance type of the endpoint ([ml.t2.medium] against
    [ml.m4.xlarge]) and in the storage prefix ([boston-xgboost-deploy-hl]
    against [boston-xgboost-deploy-ll]). *)
Theorem notebooks_compared (e : Script.env) :
  (* the same *)
  settings training_image HighLevel e = settings training_image LowLevel e
  ∧ settings training_image HighLevel e
    = [Script.get_image_uri e (Script.boto_region_name e) "xgboost" "0.90-1"]
  ∧ settings hyperparameters HighLevel e = settings hyperparameters LowLevel e
  ∧ settings csv_preparation HighLevel e = settings csv_preparation LowLevel e
  ∧ fst <$> settings training_instances HighLevel e
    = fst <$> settings training_instances LowLevel e
  ∧ fst <$> settings endpoint_instances HighLevel e
    = fst <$> settings endpoint_instances LowLevel e
  (* different *)
  ∧ settings layer HighLevel e = replicate 6 EstimatorObject
  ∧ settings layer LowLevel e = replicate 9 JobDescription
  ∧ settings random_seed HighLevel e = [Some 1123%Z; Some 1123%Z]
  ∧ settings random_seed LowLevel e = [None; None]
  ∧ settings training_instances HighLevel e = [(1%Z, "ml.p2.xlarge")]
  ∧ settings training_instances LowLevel e = [(1%Z, "ml.m4.xlarge")]
  ∧ settings endpoint_instances HighLevel e = [(1%Z, "ml.t2.medium")]
  ∧ settings endpoint_instances LowLevel e = [(1%Z, "ml.m4.xlarge")]
  ∧ settings storage_prefix HighLevel e
    = ["boston-xgboost-deploy-hl"; "boston-xgboost-deploy-hl"]
  ∧ settings storage_prefix LowLevel e
    = ["boston-xgboost-deploy-ll"; "boston-xgboost-deploy-ll"].
Proof.
  repeat split; read_settings; reflexivity.
Qed.

(** In every run each notebook writes two files, the validation file
    first, both without header and without index. *)
Definition written_file (c : Script.call) : list (string * bool * bool) :=
  match c with
  | Script.to_csv path header index => [(path, header, index)]
  | _ => []
  end.

Lemma two_files_per_run (nb : notebook) (e : Script.env) :
  settings written_file nb e
  = [("../data/boston/validation.csv", false, false);
     ("../data/boston/train.csv", false, false)].
Proof.
  destruct nb; unfold settings; run_script;
    lazy [mbind list_bind app written_file]; reflexivity.
Qed.

(** C1 as stated fails: the instance types for training and for the
    endpoint and the storage prefix are not the same in the two
    notebooks. *)
Lemma notebooks_compared_counterexample :
  settings training_instances HighLevel session_2019
    ≠ settings training_instances LowLevel session_2019
  ∧ settings endpoint_instances HighLevel session_2019
    ≠ settings endpoint_instances LowLevel session_2019
  ∧ settings storage_prefix HighLevel session_2019
    ≠ settings storage_prefix LowLevel session_2019.
Proof. repeat split; vm_compute; discriminate. Qed.


(** * Further properties of the cells *)

(** ** The guard, [os.makedirs] and the save cell *)

(** X1.  Running the guard cell a second time changes nothing: from the
    state a successful run of the guard leaves, the guard succeeds again
    and leaves that same state. *)
Theorem ensure_data_dir_idempotent (cwd : FS.path)
    (fs fs' : gmap FS.path FS.node) :
  FS.ensure_data_dir cwd fs = FS.Ok fs' →
  FS.ensure_data_dir cwd fs' = FS.Ok fs'.
Proof.
  unfold FS.ensure_data_dir. intros Hrun.
  assert (FS.exists_ fs' (FS.data_dir cwd) = true) as ->; [|done].
  destruct (FS.exists_ fs (FS.data_dir cwd)) eqn:Ex; cbn [negb] in Hrun.
  - by simplify_eq.
  - apply FS.makedirs_Ok_dir in Hrun as [Hdir _].
    unfold FS.exists_. by rewrite Hdir.
Qed.

Lemma ensure_data_dir_idempotent_witness :
  FS.ensure_data_dir cwd_tutorials fs_fresh = FS.Ok fs_ready
  ∧ FS.ensure_data_dir cwd_tutorials fs_ready = FS.Ok fs_ready.
Proof.
  assert (FS.ensure_data_dir cwd_tutorials fs_fresh = FS.Ok fs_ready) as Hrun
    by (vm_compute; reflexivity).
  split; [exact Hrun|].
  exact (ensure_data_dir_idempotent cwd_tutorials fs_fresh fs_ready Hrun).
Defined.

(** X2.  Without the guard the call would not be safe to repeat:
    [os.makedirs] on a path at which something exists never succeeds, and
    when the parent of the path exists too it raises
    [FileExistsError]. *)
Theorem makedirs_existing (fs : gmap FS.path FS.node) (p : FS.path) :
  FS.exists_ fs p = true →
  (∀ fs', FS.makedirs fs p ≠ FS.Ok fs')
  ∧ (FS.exists_ fs (FS.parent p) = true →
     FS.makedirs fs p = FS.Raise FS.FileExistsError).
Proof.
  intros Hex.
  assert (∀ fs1 : gmap FS.path FS.node,
            fs ⊆ fs1 → FS.mkdir fs1 p = FS.Raise FS.FileExistsError) as Hmk.
  { intros fs1 Hsub. unfold FS.mkdir.
    destruct p as [|c p]; [done|].
    apply FS.exists_true_Some in Hex as [n Hn].
    cbn [FS.node_at]. by rewrite (lookup_weaken _ _ _ _ Hn Hsub). }
  destruct p as [|c p]; cbn [FS.makedirs FS.parent tail].
  - split; [|intros _]; by rewrite Hmk.
  - split.
    + intros fs' Hrun.
      destruct (FS.exists_ fs p).
      * cbn [FS.bind] in Hrun. by rewrite Hmk in Hrun.
      * destruct (FS.makedirs fs p) as [fs1|e] eqn:E; [|done].
        cbn [FS.bind] in Hrun.
        apply FS.makedirs_Ok_dir in E as [_ Hsub].
        by rewrite (Hmk fs1 Hsub) in Hrun.
    + intros ->. cbn [FS.bind]. by apply Hmk.
Qed.

Lemma makedirs_existing_witness :
  FS.exists_ fs_ready (FS.data_dir cwd_tutorials) = true
  ∧ FS.makedirs fs_ready (FS.data_dir cwd_tutorials)
    = FS.Raise FS.FileExistsError.
Proof.
  split; [reflexivity|].
  apply (makedirs_existing fs_ready (FS.data_dir cwd_tutorials));
    reflexivity.
Defined.

Lemma makedirs_changed_entry (fs fs' : gmap FS.path FS.node)
    (p q : FS.path) :
  FS.makedirs fs p = FS.Ok fs' →
  fs' !! q ≠ fs !! q →
  q `suffix_of` p ∧ fs !! q = None ∧ fs' !! q = Some FS.Dir.
Proof.
  revert fs fs'. induction p as [|c p IH]; intros fs fs' Hrun Hq.
  - cbn [FS.makedirs] in Hrun. by apply FS.mkdir_Ok in Hrun as (_ & _ & ?).
  - cbn [FS.makedirs] in Hrun.
    assert (∃ fs1, (fs1 = fs ∨ FS.makedirs fs p = FS.Ok fs1)
                   ∧ FS.mkdir fs1 (c :: p) = FS.Ok fs')
      as (fs1 & Hfs1 & Hmk).
    { destruct (FS.exists_ fs p); [by exists fs; eauto|].
      destruct (FS.makedirs fs p) as [fs1|e]; [|done]. exists fs1. eauto. }
    apply FS.mkdir_Ok in Hmk as (Hnone & -> & _).
    destruct (decide (q = c :: p)) as [->|Hne].
    + split; [done|]. rewrite lookup_insert_eq. split; [|done].
      destruct Hfs1 as [->|Hrec]; [done|].
      apply FS.makedirs_Ok_dir in Hrec as [_ Hsub].
      by eapply lookup_weaken_None.
    + rewrite lookup_insert_ne in Hq by done. rewrite lookup_insert_ne by done.
      destruct Hfs1 as [->|Hrec]; [done|].
      destruct (IH _ _ Hrec Hq) as (Hsuf & ? & ?).
      split; [by apply suffix_cons_r|done].
Qed.

(** X3.  When [os.makedirs] succeeds, every entry it has changed is a
    directory that did not exist before and that lies on the path: the path
    itself or one of its ancestors.  It creates no file and touches nothing
    that existed. *)
Theorem makedirs_only_ancestors (fs fs' : gmap FS.path FS.node)
    (p q : FS.path) :
  FS.makedirs fs p = FS.Ok fs' →
  fs' !! q ≠ fs !! q →
  q `suffix_of` p ∧ fs !! q = None ∧ fs' !! q = Some FS.Dir.
Proof. apply makedirs_changed_entry. Qed.

Lemma makedirs_only_ancestors_witness :
  FS.makedirs fs_fresh (FS.data_dir cwd_tutorials) = FS.Ok fs_ready
  ∧ fs_ready !! ["data"; "deployment_part2"]
    ≠ fs_fresh !! ["data"; "deployment_part2"]
  ∧ ["data"; "deployment_part2"] `suffix_of` FS.data_dir cwd_tutorials.
Proof.
  assert (FS.makedirs fs_fresh (FS.data_dir cwd_tutorials) = FS.Ok fs_ready)
    as Hrun by (vm_compute; reflexivity).
  assert (fs_ready !! ["data"; "deployment_part2"]
          ≠ fs_fresh !! ["data"; "deployment_part2"]) as Hq
    by (vm_compute; discriminate).
  split; [exact Hrun|]. split; [exact Hq|].
  exact (proj1 (makedirs_only_ancestors fs_fresh fs_ready
                  (FS.data_dir cwd_tutorials) ["data"; "deployment_part2"]
                  Hrun Hq)).
Defined.

(** X4.  When ['../data'] is a regular file and nothing exists at
    ['../data/boston'], the guard cell raises [NotADirectoryError]. *)
Theorem ensure_data_dir_blocked_parent (cwd : FS.path)
    (fs : gmap FS.path FS.node) (content : string) :
  fs !! ("data" :: FS.parent cwd) = Some (FS.File content) →
  fs !! FS.data_dir cwd = None →
  FS.ensure_data_dir cwd fs = FS.Raise FS.NotADirectoryError.
Proof.
  intros Hdata Hnone. unfold FS.ensure_data_dir, FS.data_dir in *.
  unfold FS.exists_ at 1. cbn [FS.node_at]. rewrite Hnone. cbn [negb].
  cbn [FS.makedirs]. unfold FS.exists_ at 1. cbn [FS.node_at].
  rewrite Hdata. cbn [FS.bind]. unfold FS.mkdir.
  cbn [FS.node_at FS.parent tail]. by rewrite Hnone, Hdata.
Qed.

Definition fs_data_is_file : gmap FS.path FS.node :=
  <[["data"; "deployment_part2"] := FS.File "notes"]> fs_fresh.

Lemma ensure_data_dir_blocked_parent_witness :
  FS.ensure_data_dir cwd_tutorials fs_data_is_file
  = FS.Raise FS.NotADirectoryError.
Proof.
  apply (ensure_data_dir_blocked_parent cwd_tutorials fs_data_is_file "notes");
    reflexivity.
Defined.

Section SaveCell.
Variable value : Type.
Variable fmt : value → string.

Lemma write_file_Ok_inv (fs fs' : gmap FS.path FS.node) (dir : FS.path)
    (name content : string) :
  FS.write_file fs (FS.join dir name) content = FS.Ok fs' →
  FS.node_at fs dir = Some FS.Dir
  ∧ fs !! FS.join dir name ≠ Some FS.Dir
  ∧ fs' = <[FS.join dir name := FS.File content]> fs.
Proof.
  unfold FS.write_file, FS.join. cbn [FS.parent tail FS.node_at].
  intros H. repeat case_match; simplify_eq; done.
Qed.

Lemma node_at_insert_file (fs : gmap FS.path FS.node) (dir : FS.path)
    (name content : string) :
  FS.node_at (<[FS.join dir name := FS.File content]> fs) dir
  = FS.node_at fs dir.
Proof.
  destruct dir as [|d dir]; [done|]. cbn [FS.node_at].
  rewrite lookup_insert_ne; [done|]. unfold FS.join. intros Heq.
  apply (f_equal length) in Heq. simpl in Heq. lia.
Qed.

Lemma save_cell_Ok (dir : FS.path) (s : Frame.splits value)
    (fs : gmap FS.path FS.node) :
  FS.node_at fs dir = Some FS.Dir →
  fs !! FS.join dir "validation.csv" ≠ Some FS.Dir →
  fs !! FS.join dir "train.csv" ≠ Some FS.Dir →
  Frame.save_cell value fmt dir s fs
  = FS.Ok
      (<[FS.join dir "train.csv" :=
           FS.File (Frame.to_csv value fmt
                      (Frame.concat_columns value
                         (Frame.Y_train value s) (Frame.X_train value s))
                      false false)]>
         (<[FS.join dir "validation.csv" :=
              FS.File (Frame.to_csv value fmt
                         (Frame.concat_columns value
                            (Frame.Y_val value s) (Frame.X_val value s))
                         false false)]> fs)).
Proof.
  intros Hdir Hval Htrain. unfold Frame.save_cell.
  rewrite Frame.write_file_Ok by done. cbn [FS.bind].
  apply Frame.write_file_Ok.
  - by rewrite node_at_insert_file.
  - rewrite lookup_insert_ne; [done|]. unfold FS.join. intros [= ?].
Qed.

Lemma save_cell_Ok_inv (dir : FS.path) (s : Frame.splits value)
    (fs fs' : gmap FS.path FS.node) :
  Frame.save_cell value fmt dir s fs = FS.Ok fs' →
  FS.node_at fs dir = Some FS.Dir
  ∧ fs !! FS.join dir "validation.csv" ≠ Some FS.Dir
  ∧ fs !! FS.join dir "train.csv" ≠ Some FS.Dir.
Proof.
  unfold Frame.save_cell. intros Hrun.
  destruct (FS.write_file fs _ _) as [fs1|e] eqn:E1; [|done].
  cbn [FS.bind] in Hrun.
  apply write_file_Ok_inv in E1 as (Hdir & Hval & ->).
  apply write_file_Ok_inv in Hrun as (_ & Htrain & _).
  split; [done|]. split; [done|].
  rewrite lookup_insert_ne in Htrain; [done|].
  unfold FS.join. intros [= ?].
Qed.

(** X5.  The save cell succeeds exactly when the data directory is a
    directory and neither of the two file names is taken by a directory.
    In particular it raises when the data directory does not exist, which
    is what the guard cell is there to prevent. *)
Theorem save_cell_succeeds_iff (dir : FS.path) (s : Frame.splits value)
    (fs : gmap FS.path FS.node) :
  (∃ fs', Frame.save_cell value fmt dir s fs = FS.Ok fs')
  ↔ FS.node_at fs dir = Some FS.Dir
    ∧ fs !! FS.join dir "validation.csv" ≠ Some FS.Dir
    ∧ fs !! FS.join dir "train.csv" ≠ Some FS.Dir.
Proof.
  split.
  - intros [fs' Hrun]. by eapply save_cell_Ok_inv.
  - intros (Hdir & Hval & Htrain). rewrite save_cell_Ok by done. eauto.
Qed.

(** X6.  The save cell overwrites: running it on the state an earlier
    run of it has left gives the same result as running it on the state
    before that earlier run, so nothing of the files of an earlier run
    survives. *)
Theorem save_cell_overwrites (dir : FS.path) (s1 s2 : Frame.splits value)
    (fs fs1 : gmap FS.path FS.node) :
  Frame.save_cell value fmt dir s1 fs = FS.Ok fs1 →
  Frame.save_cell value fmt dir s2 fs1 = Frame.save_cell value fmt dir s2 fs.
Proof.
  intros Hrun.
  pose proof (save_cell_Ok_inv _ _ _ _ Hrun) as (Hdir & Hval & Htrain).
  assert (FS.join dir "train.csv" ≠ FS.join dir "validation.csv") as Hne
    by (unfold FS.join; intros [= ?]).
  rewrite save_cell_Ok in Hrun by done. simplify_eq.
  rewrite (save_cell_Ok dir s2 fs) by done.
  rewrite save_cell_Ok; cycle 1.
  { by rewrite !node_at_insert_file. }
  { rewrite lookup_insert_ne by done. by rewrite lookup_insert_eq. }
  { by rewrite lookup_insert_eq. }
  f_equal.
  rewrite (insert_insert_ne _ (FS.join dir "validation.csv")) by done.
  rewrite insert_insert_eq. by rewrite insert_insert_eq.
Qed.

End SaveCell.

(** ** The clean-up cell

    [[
    !rm $data_dir/*
    !rmdir $data_dir
    ]]
    The shell expands [*] to the entries of the directory whose names do
    not start with a dot.  [rm] removes the regular files among them and
    refuses the directories; [rmdir] removes the directory when it holds
    nothing.  A command that fails prints its error and the cell goes
    on. *)

Module Shell.

Definition hidden (name : string) : bool :=
  match name with
  | String c _ => Ascii.eqb c "."
  | EmptyString => false
  end.

(** [p] is an entry directly inside [dir]. *)
Definition is_child (dir p : FS.path) : bool :=
  match p with
  | _ :: d => bool_decide (d = dir)
  | [] => false
  end.

(** [p] is matched by [dir/*]. *)
Definition matched (dir p : FS.path) : bool :=
  match p with
  | name :: d => bool_decide (d = dir) && negb (hidden name)
  | [] => false
  end.

Definition is_file (n : FS.node) : bool :=
  match n with
  | FS.File _ => true
  | FS.Dir => false
  end.

(** [rm dir/*] *)
Definition rm_glob (dir : FS.path) (fs : gmap FS.path FS.node)
  : gmap FS.path FS.node :=
  filter (λ kv, matched dir kv.1 && is_file kv.2 = false) fs.

(** [rmdir dir] *)
Definition rmdir (dir : FS.path) (fs : gmap FS.path FS.node)
  : gmap FS.path FS.node :=
  match fs !! dir with
  | Some FS.Dir =>
      if decide (map_Forall (λ p _, is_child dir p = false) fs)
      then delete dir fs
      else fs
  | _ => fs
  end.

(** The clean-up cell of both notebooks. *)
Definition clean_up (cwd : FS.path) (fs : gmap FS.path FS.node)
  : gmap FS.path FS.node :=
  rmdir (FS.data_dir cwd) (rm_glob (FS.data_dir cwd) fs).

Lemma lookup_rm_glob (dir : FS.path) (fs : gmap FS.path FS.node) p :
  rm_glob dir fs !! p
  = match fs !! p with
    | Some n => if matched dir p && is_file n then None else Some n
    | None => None
    end.
Proof.
  unfold rm_glob. rewrite map_lookup_filter.
  destruct (fs !! p) as [n|]; [|done]. cbn.
  destruct (matched dir p && is_file n); by case_guard.
Qed.

Lemma matched_child (dir p : FS.path) :
  matched dir p = true → is_child dir p = true.
Proof.
  destruct p as [|name d]; [done|]. cbn.
  by intros [? _]%andb_true_iff.
Qed.

Lemma rm_glob_subseteq (dir : FS.path) (fs : gmap FS.path FS.node) :
  rm_glob dir fs ⊆ fs.
Proof. apply map_filter_subseteq. Qed.

Lemma rmdir_subseteq (dir : FS.path) (fs : gmap FS.path FS.node) :
  rmdir dir fs ⊆ fs.
Proof.
  unfold rmdir. repeat case_match; try done. apply delete_subseteq.
Qed.

Lemma lookup_rmdir_ne (dir : FS.path) (fs : gmap FS.path FS.node) p :
  p ≠ dir → rmdir dir fs !! p = fs !! p.
Proof.
  intros Hne. unfold rmdir. repeat case_match; try done.
  by rewrite lookup_delete_ne.
Qed.

End Shell.

#[export] Instance node_eq_dec : EqDecision FS.node.
Proof. solve_decision. Defined.

Lemma makedirs_Ok_parent (fs fs' : gmap FS.path FS.node) (c : string)
    (p : FS.path) :
  FS.makedirs fs (c :: p) = FS.Ok fs' → FS.node_at fs' p = Some FS.Dir.
Proof.
  cbn [FS.makedirs]. intros Hrun.
  destruct (if FS.exists_ fs p then FS.Ok fs else FS.makedirs fs p)
    as [fs1|e]; [|done].
  cbn [FS.bind] in Hrun. unfold FS.mkdir in Hrun.
  cbn [FS.parent tail] in Hrun.
  destruct (FS.node_at fs1 (c :: p)); [done|].
  destruct (FS.node_at fs1 p) as [[|?]|] eqn:Hp; [|done..].
  simplify_eq. destruct p as [|d p]; [done|]. cbn [FS.node_at] in *.
  rewrite lookup_insert_ne; [done|]. intros Heq.
  apply (f_equal length) in Heq. simpl in Heq. lia.
Qed.

Lemma not_child_of_itself (dir : FS.path) : Shell.is_child dir dir = false.
Proof.
  destruct dir as [|c d]; [done|]. cbn. apply bool_decide_eq_false.
  intros Heq. apply (f_equal length) in Heq. simpl in Heq. lia.
Qed.

Lemma ensure_data_dir_no_children (cwd : FS.path)
    (fs fs1 : gmap FS.path FS.node) :
  (∀ name, fs !! (name :: FS.data_dir cwd) = None) →
  FS.ensure_data_dir cwd fs = FS.Ok fs1 →
  ∀ name, fs1 !! (name :: FS.data_dir cwd) = None.
Proof.
  intros Hempty Hrun name. unfold FS.ensure_data_dir in Hrun.
  destruct (FS.exists_ fs (FS.data_dir cwd)); cbn [negb] in Hrun.
  - by simplify_eq.
  - destruct (decide (fs1 !! (name :: FS.data_dir cwd)
                      = fs !! (name :: FS.data_dir cwd))) as [->|Hne];
      [done|].
    destruct (makedirs_changed_entry _ _ _ _ Hrun Hne) as (Hsuf & _).
    apply suffix_length in Hsuf. simpl in Hsuf. lia.
Qed.

Lemma rmdir_empty (dir : FS.path) (fs : gmap FS.path FS.node) :
  fs !! dir = Some FS.Dir →
  (∀ name, fs !! (name :: dir) = None) →
  Shell.rmdir dir fs = delete dir fs.
Proof.
  intros Hdir Hempty. unfold Shell.rmdir. rewrite Hdir.
  rewrite decide_True; [done|].
  intros p n Hp. destruct p as [|name d]; [done|]. cbn.
  apply bool_decide_eq_false. intros ->. by rewrite Hempty in Hp.
Qed.

Section CleanUp.
Variable value : Type.
Variable fmt : value → string.

(** X7.  When the data directory held nothing before the guard ran, the
    clean-up cell after the guard and the save cell removes both CSV files
    and the data directory and leaves everything else as the guard left it.
    It does not remove ['../data']: when the guard had to create the data
    directory, ['../data'] is still a directory after the clean-up. *)
Theorem clean_up_after_save (cwd : FS.path) (s : Frame.splits value)
    (fs fs1 fs2 : gmap FS.path FS.node) :
  (∀ name, fs !! (name :: FS.data_dir cwd) = None) →
  FS.ensure_data_dir cwd fs = FS.Ok fs1 →
  Frame.save_cell value fmt (FS.data_dir cwd) s fs1 = FS.Ok fs2 →
  Shell.clean_up cwd fs2 = delete (FS.data_dir cwd) fs1
  ∧ (fs !! FS.data_dir cwd = None →
     Shell.clean_up cwd fs2 !! ("data" :: FS.parent cwd) = Some FS.Dir).
Proof.
  intros Hempty Hguard Hsave.
  pose proof (ensure_data_dir_no_children _ _ _ Hempty Hguard) as Hempty1.
  pose proof (save_cell_Ok_inv _ _ _ _ _ _ Hsave) as (Hdir & Hval & Htrain).
  rewrite save_cell_Ok in Hsave by done. simplify_eq.
  assert (fs1 !! FS.data_dir cwd = Some FS.Dir) as Hdir' by exact Hdir.
  set (d := FS.data_dir cwd) in *.
  assert (Shell.rm_glob d
            (<[FS.join d "train.csv" :=
                 FS.File (Frame.to_csv value fmt
                            (Frame.concat_columns value
                               (Frame.Y_train value s) (Frame.X_train value s))
                            false false)]>
               (<[FS.join d "validation.csv" :=
                    FS.File (Frame.to_csv value fmt
                               (Frame.concat_columns value
                                  (Frame.Y_val value s) (Frame.X_val value s))
                               false false)]> fs1))
          = fs1) as Hrm.
  { apply map_eq. intros p. rewrite Shell.lookup_rm_glob.
    destruct (decide (p = FS.join d "train.csv")) as [->|Hp1].
    { rewrite lookup_insert_eq. unfold FS.join. cbn.
      rewrite bool_decide_eq_true_2 by done. cbn. by rewrite Hempty1. }
    rewrite lookup_insert_ne by done.
    destruct (decide (p = FS.join d "validation.csv")) as [->|Hp2].
    { rewrite lookup_insert_eq. unfold FS.join. cbn.
      rewrite bool_decide_eq_true_2 by done. cbn. by rewrite Hempty1. }
    rewrite lookup_insert_ne by done.
    destruct (fs1 !! p) as [n|] eqn:Hp; [|done].
    destruct (Shell.matched d p) eqn:Hm; [|done].
    apply Shell.matched_child in Hm. destruct p as [|name d']; [done|].
    cbn in Hm. apply bool_decide_eq_true in Hm as ->.
    by rewrite Hempty1 in Hp. }
  assert (Shell.clean_up cwd
            (<[FS.join d "train.csv" :=
                 FS.File (Frame.to_csv value fmt
                            (Frame.concat_columns value
                               (Frame.Y_train value s) (Frame.X_train value s))
                            false false)]>
               (<[FS.join d "validation.csv" :=
                    FS.File (Frame.to_csv value fmt
                               (Frame.concat_columns value
                                  (Frame.Y_val value s) (Frame.X_val value s))
                               false false)]> fs1))
          = delete d fs1) as Hclean.
  { unfold Shell.clean_up. fold d. rewrite Hrm. by apply rmdir_empty. }
  split; [exact Hclean|].
  intros Hnone. rewrite Hclean.
  rewrite lookup_delete_ne by (subst d; unfold FS.data_dir; intros [= ?]).
  unfold FS.ensure_data_dir in Hguard. fold d in Hguard.
  unfold FS.exists_ in Hguard at 1.
  assert (FS.node_at fs d = None) as Hnone' by exact Hnone.
  rewrite Hnone' in Hguard. cbn [negb] in Hguard.
  exact (makedirs_Ok_parent _ _ _ _ Hguard).
Qed.

End CleanUp.

(** X8.  The clean-up cell only ever removes regular files with a
    visible name directly inside the data directory, and the data directory
    itself: every other entry stays as it is.  A hidden file or a
    subdirectory inside the data directory is not removed, and then the data
    directory stays too. *)
Theorem clean_up_scope (cwd : FS.path) (fs : gmap FS.path FS.node) :
  Shell.clean_up cwd fs ⊆ fs
  ∧ (∀ p n,
       fs !! p = Some n →
       p ≠ FS.data_dir cwd →
       Shell.matched (FS.data_dir cwd) p && Shell.is_file n = false →
       Shell.clean_up cwd fs !! p = Some n)
  ∧ (∀ name n,
       fs !! (name :: FS.data_dir cwd) = Some n →
       Shell.hidden name = true ∨ n = FS.Dir →
       Shell.clean_up cwd fs !! (name :: FS.data_dir cwd) = Some n
       ∧ Shell.clean_up cwd fs !! FS.data_dir cwd = fs !! FS.data_dir cwd).
Proof.
  set (d := FS.data_dir cwd).
  assert (∀ p n, fs !! p = Some n →
                 Shell.matched d p && Shell.is_file n = false →
                 Shell.rm_glob d fs !! p = Some n) as Hkeep.
  { intros p n Hp Hm. by rewrite Shell.lookup_rm_glob, Hp, Hm. }
  split; [|split].
  - unfold Shell.clean_up. etrans; [apply Shell.rmdir_subseteq|].
    apply Shell.rm_glob_subseteq.
  - intros p n Hp Hne Hm. unfold Shell.clean_up. fold d.
    rewrite Shell.lookup_rmdir_ne by done. by apply Hkeep.
  - intros name n Hp Hwhy.
    assert (Shell.matched d (name :: d) && Shell.is_file n = false) as Hm.
    { cbn. destruct Hwhy as [->| ->]; [|by rewrite andb_false_r].
      by rewrite andb_false_r. }
    pose proof (Hkeep _ _ Hp Hm) as Hstay.
    assert (Shell.rmdir d (Shell.rm_glob d fs) = Shell.rm_glob d fs) as Heq.
    { unfold Shell.rmdir. destruct (Shell.rm_glob d fs !! d) as [[|?]|]; try done.
      rewrite decide_False; [done|]. intros Hall.
      specialize (Hall _ _ Hstay). cbn in Hall.
      by rewrite bool_decide_eq_true_2 in Hall. }
    unfold Shell.clean_up. fold d. rewrite Heq. split; [done|].
    rewrite Shell.lookup_rm_glob.
    destruct (fs !! d) as [nd|]; [|done].
    assert (Shell.matched d d = false) as ->; [|done].
    destruct (Shell.matched d d) eqn:E; [|done].
    apply Shell.matched_child in E. by rewrite not_child_of_itself in E.
Qed.

(** ** The frames and the CSV text *)

Section FrameFacts.
Variable value : Type.
Variable fmt : value → string.
Variable rng : Type.
Variable seed : Z → rng.
Variable shuffle_split : rng → nat → (list nat * list nat) * rng.

#[local] Abbreviation split_cell := (Frame.split_cell value rng seed shuffle_split).
#[local] Abbreviation to_csv := (Frame.to_csv value fmt).
#[local] Abbreviation fmt_cell := (Frame.fmt_cell value fmt).
#[local] Abbreviation concat_columns := (Frame.concat_columns value).
#[local] Abbreviation rows := (Frame.rows value).

Lemma concat_same_sample (boston : Frame.bunch value) (k : nat)
    (Y X : Frame.DataFrame value) :
  Forall (λ row, length row = k) (Frame.data value boston) →
  Forall2 (Frame.same_sample value boston) (rows Y) (rows X) →
  Forall (λ r, length r.2 = S k ∧ Forall is_Some r.2)
    (rows (concat_columns Y X)).
Proof.
  intros Hwidth Hsame. unfold Frame.concat_columns. cbn [Frame.rows].
  rewrite decide_True by (by apply (Frame.same_sample_index value boston)).
  induction Hsame as [|ry rx ys xs (l & t & fs & Ht & Hfs & -> & ->) _ IH];
    [constructor|].
  cbn [zip_with]. constructor; [|exact IH]. cbn [fst snd].
  rewrite Forall_forall in Hwidth.
  specialize (Hwidth fs (list_elem_of_lookup_2 _ _ _ Hfs)).
  split.
  - cbn. by rewrite length_fmap, Hwidth.
  - constructor; [by eexists|].
    apply Forall_fmap, Forall_forall. intros v _. by eexists.
Qed.

(** X10.  Whatever positions the splitter returns, the frames written
    to the two files are complete and rectangular: when every feature row
    of the dataset has [k] values, every row of the validation and of the
    training file has [k + 1] cells and none of them is missing (the
    concatenation never pads with NaN). *)
Theorem written_frames_rectangular (nb : notebook) (g g' : rng)
    (boston : Frame.bunch value) (s : Frame.splits value) (k : nat) :
  split_cell nb g boston = Some (s, g') →
  Forall (λ row, length row = k) (Frame.data value boston) →
  Forall (λ r, length r.2 = S k ∧ Forall is_Some r.2)
    (rows (concat_columns (Frame.Y_val value s) (Frame.X_val value s)))
  ∧ Forall (λ r, length r.2 = S k ∧ Forall is_Some r.2)
      (rows (concat_columns (Frame.Y_train value s) (Frame.X_train value s))).
Proof.
  intros Hrun Hwidth.
  destruct (Frame.split_cell_samples value rng seed shuffle_split
              _ _ _ _ _ Hrun) as (Htr & Hva & _).
  split; by eapply concat_same_sample.
Qed.

(** The text of a frame can be read back when no formatted cell holds a
    comma or a newline and every row has a cell. *)
Definition csv_safe (df : Frame.DataFrame value) : bool :=
  forallb (λ r, negb (Nat.eqb (length r.2) 0)
                && forallb (λ c, Payload.clean (fmt_cell c)) r.2)
    (rows df).

Lemma concat_empty_cons (x : string) (xs : list string) :
  String.concat "" (x :: xs) = x +:+ String.concat "" xs.
Proof.
  destruct xs as [|y xs]; [|done]. cbn. by rewrite NumpyText.app_nil_r.
Qed.

Lemma split_terminated_lines (ls : list string) :
  Forall (λ l, PyStr.contains PyStr.newline l = false) ls →
  PyStr.split PyStr.newline
    (String.concat "" ((λ l, l +:+ PyStr.sep1 PyStr.newline) <$> ls))
  = ls ++ [""].
Proof.
  induction 1 as [|l ls Hl _ IH]; [done|].
  rewrite fmap_cons, concat_empty_cons, NumpyText.app_assoc.
  change (PyStr.sep1 PyStr.newline +:+ ?r) with (String PyStr.newline r).
  rewrite PyStr.split_app_sep by done. by rewrite IH.
Qed.

(** X11.  A CSV file written with [header=False, index=False] reads back:
    when no formatted cell holds a comma or a newline and every row has a
    cell, splitting the text on newlines and then on commas gives the
    formatted cells of every row of the frame, in order, followed by one
    empty line for the final newline. *)
Theorem to_csv_round_trip (df : Frame.DataFrame value) :
  csv_safe df = true →
  Payload.deserialize (to_csv df false false)
  = ((λ r : nat * list (option value), fmt_cell <$> r.2) <$> rows df)
    ++ [[""]].
Proof.
  intros Hsafe.
  assert (Forall (λ r, r.2 ≠ []
                      ∧ Forall (λ c, PyStr.contains PyStr.comma (fmt_cell c) = false
                                     ∧ PyStr.contains PyStr.newline (fmt_cell c) = false)
                          r.2) (rows df)) as Hrows.
  { apply Forall_forall. intros r Hr. unfold csv_safe in Hsafe.
    rewrite forallb_forall in Hsafe.
    specialize (Hsafe r (proj1 (list_elem_of_In _ _) Hr)).
    apply andb_true_iff in Hsafe as [Hne Hcells].
    apply negb_true_iff, Nat.eqb_neq in Hne. split.
    - intros Hnil. by rewrite Hnil in Hne.
    - apply Forall_forall. intros c Hc. rewrite forallb_forall in Hcells.
      specialize (Hcells c (proj1 (list_elem_of_In _ _) Hc)).
      unfold Payload.clean in Hcells.
      apply andb_true_iff in Hcells as [H1 H2].
      by rewrite negb_true_iff in H1, H2. }
  unfold Frame.to_csv, Payload.deserialize. cbn [app].
  change ("" +:+ ?t) with t.
  assert ((λ r : nat * list (option value),
             Frame.csv_line (fmt_cell <$> r.2)) <$> rows df
          = (λ l, l +:+ PyStr.sep1 PyStr.newline)
              <$> ((λ r : nat * list (option value),
                      PyStr.join (PyStr.sep1 PyStr.comma) (fmt_cell <$> r.2))
                     <$> rows df)) as ->.
  { by rewrite <- list_fmap_compose. }
  rewrite split_terminated_lines; cycle 1.
  { apply Forall_fmap. eapply Forall_impl; [exact Hrows|].
    intros r [_ Hcells]. cbn. apply PyStr.contains_join_false; [done|].
    apply Forall_fmap. eapply Forall_impl; [exact Hcells|]. by intros c [_ ?]. }
  rewrite map_app. cbn [map]. f_equal.
  change (map ?f ?l) with (f <$> l). rewrite <- list_fmap_compose.
  apply Forall_fmap_ext_1. eapply Forall_impl; [exact Hrows|].
  intros r [Hne Hcells]. cbn. apply PyStr.split_join.
  - by destruct (r.2).
  - apply Forall_fmap. eapply Forall_impl; [exact Hcells|]. by intros c [? _].
Qed.

End FrameFacts.

(** ** Sending the test rows in chunks *)

Section Chunks.
Variable entry : Type.
Variable str : entry → string.

Lemma join_app (sep : string) (l1 l2 : list string) :
  l1 ≠ [] → l2 ≠ [] →
  PyStr.join sep (l1 ++ l2)
  = PyStr.join sep l1 +:+ sep +:+ PyStr.join sep l2.
Proof.
  intros H1 H2. induction l1 as [|x l1 IH]; [done|].
  destruct l1 as [|y l1].
  - destruct l2 as [|z l2]; [done|]. reflexivity.
  - change (PyStr.join sep ((x :: y :: l1) ++ l2))
      with (x +:+ sep +:+ PyStr.join sep ((y :: l1) ++ l2)).
    rewrite IH by done.
    change (PyStr.join sep (x :: y :: l1))
      with (x +:+ sep +:+ PyStr.join sep (y :: l1)).
    by rewrite !NumpyText.app_assoc.
Qed.

(** X12.  The payload of a test matrix cut into two chunks is the two
    chunk payloads with one newline between them: rows sent in chunks are
    the same lines as rows sent at once. *)
Theorem payload_chunks (a b : list (list entry)) :
  a ≠ [] → b ≠ [] →
  Payload.payload entry str (a ++ b)
  = Payload.payload entry str a
    +:+ PyStr.sep1 PyStr.newline
    +:+ Payload.payload entry str b.
Proof.
  intros Ha Hb. unfold Payload.payload, Payload.join_rows, Payload.stringify.
  rewrite !map_app. apply join_app.
  - by destruct a.
  - by destruct b.
Qed.

End Chunks.

Lemma payload_chunks_witness :
  Payload.payload string id ([["0.02731"; "18.0"]] ++ [["7.07"; "0.469"]])
  = Payload.payload string id [["0.02731"; "18.0"]]
    +:+ PyStr.sep1 PyStr.newline
    +:+ Payload.payload string id [["7.07"; "0.469"]].
Proof.
  apply (payload_chunks string id [["0.02731"; "18.0"]] [["7.07"; "0.469"]]);
    discriminate.
Defined.

(** ** More on reading the prediction blob *)

Module NumpyFacts.
Import PyStr NumpyText.

(** The number of commas of a text. *)
Fixpoint commas (s : string) : nat :=
  match s with
  | String c s' => (if Ascii.eqb c comma then 1 else 0) + commas s'
  | EmptyString => 0
  end.

Lemma commas_app (s t : string) : commas (s +:+ t) = commas s + commas t.
Proof.
  induction s as [|c s IH]; [done|].
  rewrite app_cons. cbn [commas]. rewrite IH. lia.
Qed.

(** What a reader has consumed: [s] is [pre] followed by [rest], and
    [pre] holds no comma. *)
Definition consumed (s pre rest : string) : Prop :=
  s = pre +:+ rest ∧ commas pre = 0.

Lemma consumed_nil s : consumed s "" s.
Proof. done. Qed.

Lemma consumed_trans s p1 s1 p2 s2 :
  consumed s p1 s1 → consumed s1 p2 s2 → consumed s (p1 +:+ p2) s2.
Proof.
  intros [-> H1] [-> H2]. split.
  - by rewrite app_assoc.
  - rewrite commas_app. lia.
Qed.

Lemma consumed_cons c s pre rest :
  Ascii.eqb c comma = false →
  consumed s pre rest → consumed (String c s) (String c pre) rest.
Proof.
  intros Hc [-> H]. split; [done|]. cbn [commas]. by rewrite Hc.
Qed.

Lemma consumed_length s pre rest :
  consumed s pre rest →
  String.length s = String.length pre + String.length rest.
Proof. intros [-> _]. apply length_app. Qed.

Lemma read_digits_consumed s acc n m n' rest :
  read_digits s acc n = (m, n', rest) →
  ∃ pre, consumed s pre rest ∧ String.length pre + n = n'.
Proof.
  revert acc n. induction s as [|c s IH]; intros acc n; cbn [read_digits].
  - intros [= <- <- <-]. by exists "".
  - destruct (digit_of c) as [d|] eqn:Hd.
    + intros Hrec. destruct (IH _ _ Hrec) as (pre & Hpre & Hlen).
      exists (String c pre). split.
      * apply consumed_cons; [|done].
        destruct (Ascii.eqb_spec c comma) as [->|]; done.
      * cbn [String.length]. lia.
    + intros [= <- <- <-]. by exists "".
Qed.

Lemma skip_while_consumed P s :
  P comma = false → ∃ pre, consumed s pre (skip_while P s).
Proof.
  intros HP.
  induction s as [|c s [pre Hpre]]; cbn [skip_while]; [by exists ""|].
  destruct (P c) eqn:Hc; [|by exists ""].
  exists (String c pre). apply consumed_cons; [|done].
  destruct (Ascii.eqb_spec c comma) as [->|]; [congruence|done].
Qed.

Lemma skip_spaces_consumed s : ∃ pre, consumed s pre (skip_spaces s).
Proof. by apply skip_while_consumed. Qed.

Lemma read_sign_consumed s sg rest :
  read_sign s = (sg, rest) → ∃ pre, consumed s pre rest.
Proof.
  destruct s as [|c s]; cbn [read_sign].
  - intros [= <- <-]. by exists "".
  - destruct (Ascii.eqb_spec c "-") as [->|].
    { intros [= <- <-]. by exists "-". }
    destruct (Ascii.eqb_spec c "+") as [->|].
    { intros [= <- <-]. by exists "+". }
    intros [= <- <-]. by exists "".
Qed.

Lemma read_exponent_consumed s e rest :
  read_exponent s = (e, rest) → ∃ pre, consumed s pre rest.
Proof.
  destruct s as [|c s]; cbn [read_exponent].
  - intros [= <- <-]. by exists "".
  - destruct (Ascii.eqb c "e" || Ascii.eqb c "E") eqn:Hc.
    + destruct (read_sign s) as [sg s1] eqn:E1.
      destruct (read_digits s1 0%N 0) as [[m n] s2] eqn:E2.
      destruct n as [|n]; intros [= <- <-]; [by exists ""|].
      destruct (read_sign_consumed _ _ _ E1) as [p1 H1].
      destruct (read_digits_consumed _ _ _ _ _ _ E2) as (p2 & H2 & _).
      exists (String c (p1 +:+ p2)). apply consumed_cons.
      * destruct (Ascii.eqb_spec c comma) as [->|]; done.
      * by eapply consumed_trans.
    + intros [= <- <-]. by exists "".
Qed.

(** A numeral that is read holds no comma. *)
Lemma string_to_double_consumed s x rest :
  string_to_double s = Some (x, rest) → ∃ pre, consumed s pre rest.
Proof.
  unfold string_to_double.
  destruct (read_sign s) as [sg s1] eqn:E1.
  destruct (read_digits s1 0%N 0) as [[m1 n1] s2] eqn:E2.
  destruct (match s2 with
            | String c s' =>
                if Ascii.eqb c "." then read_digits s' m1 0 else (m1, 0, s2)
            | EmptyString => (m1, 0, s2)
            end) as [[m2 n2] s3] eqn:E3.
  destruct (n1 + n2) as [|k] eqn:Hk; [done|].
  destruct (read_exponent s3) as [e s4] eqn:E4.
  intros [= <- <-].
  destruct (read_sign_consumed _ _ _ E1) as [p1 H1].
  destruct (read_digits_consumed _ _ _ _ _ _ E2) as (p2 & H2 & L2).
  destruct (read_exponent_consumed _ _ _ E4) as [p4 H4].
  assert (∃ p3, consumed s2 p3 s3) as (p3 & H3).
  { destruct s2 as [|c s'].
    - simplify_eq. by exists "".
    - destruct (Ascii.eqb_spec c ".") as [->|].
      + destruct (read_digits_consumed _ _ _ _ _ _ E3) as (p & Hp & Lp).
        exists (String "." p). by apply consumed_cons.
      + simplify_eq. by exists "". }
  exists (p1 +:+ p2 +:+ p3 +:+ p4).
  repeat (eapply consumed_trans; [eassumption|]). done.
Qed.

(** No character of [word] is a comma, in either case. *)
Fixpoint letters (word : string) : bool :=
  match word with
  | String a word' => negb (Ascii.eqb (to_lower comma) (to_lower a))
                      && letters word'
  | EmptyString => true
  end.

Lemma strip_word_consumed word s rest :
  letters word = true →
  strip_word word s = Some rest → ∃ pre, consumed s pre rest.
Proof.
  revert s. induction word as [|a word IH]; intros s Hword; cbn [strip_word].
  - intros [= <-]. by exists "".
  - cbn [letters] in Hword. apply andb_true_iff in Hword as [Ha Hword].
    destruct s as [|c s]; [done|].
    destruct (Ascii.eqb (to_lower c) (to_lower a)) eqn:Hc; [|done].
    intros Hrec. destruct (IH s Hword Hrec) as [pre Hpre].
    exists (String c pre). apply consumed_cons; [|done].
    destruct (Ascii.eqb_spec c comma) as [->|]; [|done].
    by rewrite Hc in Ha.
Qed.

Lemma skip_nan_payload_consumed p :
  ∃ pre, consumed p pre (skip_nan_payload p).
Proof.
  unfold skip_nan_payload. destruct p as [|c p1]; [by exists ""|].
  destruct (Ascii.eqb_spec c "(") as [->|]; [|by exists ""].
  destruct (skip_while_consumed payload_char p1) as [pre Hpre]; [done|].
  remember (skip_while payload_char p1) as p2 eqn:E2.
  destruct p2 as [|c2 p3].
  - exists (String "(" pre). by apply consumed_cons.
  - destruct (Ascii.eqb_spec c2 ")") as [->|].
    + exists (String "(" (pre +:+ ")")). apply consumed_cons; [done|].
      eapply consumed_trans; [exact Hpre|]. done.
    + exists (String "(" pre). by apply consumed_cons.
Qed.

(** What [NumPyOS_ascii_strtod] reads holds no comma. *)
Lemma ascii_strtod_consumed s x rest :
  ascii_strtod s = (x, rest) → ∃ pre, consumed s pre rest.
Proof.
  unfold ascii_strtod.
  destruct (skip_spaces_consumed s) as [p0 H0].
  destruct (read_sign (skip_spaces s)) as [sg p] eqn:E1.
  destruct (read_sign_consumed _ _ _ E1) as [p1 H1].
  destruct (strip_word "nan" p) as [q|] eqn:Enan.
  { intros [= <- <-].
    destruct (strip_word_consumed "nan" _ _ eq_refl Enan) as [p2 H2].
    destruct (skip_nan_payload_consumed q) as [p3 H3].
    exists (p0 +:+ p1 +:+ p2 +:+ p3).
    repeat (eapply consumed_trans; [eassumption|]). done. }
  destruct (strip_word "inf" p) as [q|] eqn:Einf.
  { intros [= <- <-].
    destruct (strip_word_consumed "inf" _ _ eq_refl Einf) as [p2 H2].
    assert (∃ p3, consumed q p3 (default q (strip_word "inity" q)))
      as [p3 H3].
    { destruct (strip_word "inity" q) as [q'|] eqn:Eity; [|by exists ""].
      exact (strip_word_consumed "inity" _ _ eq_refl Eity). }
    exists (p0 +:+ p1 +:+ p2 +:+ p3).
    repeat (eapply consumed_trans; [eassumption|]). done. }
  destruct (string_to_double (skip_spaces s)) as [[d r]|] eqn:Edec.
  - intros [= <- <-].
    destruct (string_to_double_consumed _ _ _ Edec) as [p2 H2].
    exists (p0 +:+ p2). by eapply consumed_trans.
  - intros [= <- <-]. by exists p0.
Qed.

(** An element that is stored has taken at least one character and no
    comma. *)
Lemma next_element_consumed s x rest :
  next_element s = Some (x, rest) →
  ∃ pre, consumed s pre rest ∧ 0 < String.length pre.
Proof.
  unfold next_element.
  destruct (ascii_strtod s) as [y r] eqn:E.
  destruct (ascii_strtod_consumed _ _ _ E) as [pre Hpre].
  destruct (Nat.eqb_spec (String.length r) (String.length s)); [done|].
  intros [= <- <-]. exists pre. split; [done|].
  apply consumed_length in Hpre. lia.
Qed.

(** A separator that is skipped holds exactly one comma. *)
Lemma skip_separator_consumed s rest :
  skip_separator s = Some rest →
  ∃ pre, s = pre +:+ rest ∧ commas pre = 1.
Proof.
  unfold skip_separator.
  destruct (skip_spaces_consumed s) as (p0 & Hs & C0).
  remember (skip_spaces s) as t eqn:Et. destruct t as [|c s']; [done|].
  destruct (Ascii.eqb_spec c comma) as [->|]; [|done].
  destruct s' as [|c2 r]; [done|]. intros [= <-].
  exists (p0 +:+ String comma ""). split.
  - rewrite Hs. by rewrite app_assoc.
  - rewrite commas_app. cbn [commas]. rewrite Ascii.eqb_refl. lia.
Qed.

Lemma read_loop_fuel (f1 f2 : nat) (s : string) :
  String.length s < f1 → String.length s < f2 →
  read_loop f1 s = read_loop f2 s.
Proof.
  revert f2 s. induction f1 as [|f1 IH]; intros f2 s H1 H2; [lia|].
  destruct f2 as [|f2]; [lia|]. cbn [read_loop].
  destruct (next_element s) as [[x rest]|] eqn:Hp; [|done].
  destruct (next_element_consumed _ _ _ Hp) as (pre & [-> _] & Hlen).
  destruct (skip_separator rest) as [rest'|] eqn:Hs; [|done].
  destruct (skip_separator_consumed _ _ Hs) as (pre' & -> & _).
  rewrite !length_app in H1, H2.
  f_equal. apply IH; lia.
Qed.

(** X13.  The reading loop of [np.fromstring] always runs until the
    input ends or stops matching: whatever the text, giving the loop more
    rounds than [fromstring] gives it never changes the result. *)
Theorem fromstring_fuel (text : string) (fuel : nat) :
  String.length text < fuel → read_loop fuel text = fromstring text.
Proof. intros Hfuel. apply read_loop_fuel; [done|lia]. Qed.

Lemma length_read_loop (fuel : nat) (s : string) :
  length (read_loop fuel s) ≤ S (commas s).
Proof.
  revert s. induction fuel as [|fuel IH]; intros s; cbn [read_loop].
  { cbn. lia. }
  destruct (next_element s) as [[x rest]|] eqn:Hp; [|cbn; lia].
  destruct (next_element_consumed _ _ _ Hp) as (pre & [-> Hc] & _).
  destruct (skip_separator rest) as [rest'|] eqn:Hs; [|cbn; lia].
  destruct (skip_separator_consumed _ _ Hs) as (pre' & -> & Hc').
  specialize (IH rest'). rewrite !commas_app. cbn [length]. lia.
Qed.

(** X14.  [np.fromstring] never returns more entries than the text has
    comma-separated fields: at most one more than the number of commas,
    also when it stores [-1.0] for a blank field or reads [nan] or
    [inf]. *)
Theorem fromstring_length (text : string) :
  length (fromstring text) ≤ S (commas text).
Proof. apply length_read_loop. Qed.

Lemma fromstring_blob_then ns rest :
  ns ≠ [] →
  Forall (λ n, well_formed n = true) ns →
  head_ok stop rest = true →
  fromstring (blob ns +:+ rest)
  = (double <$> ns)
    ++ match skip_separator rest with
       | Some r => fromstring r
       | None => []
       end.
Proof.
  intros Hne Hwf Hrest. unfold fromstring at 1.
  pose proof (length_blob ns Hwf) as Hlen.
  rewrite (read_loop_fuel _
             (length ns + S (String.length (blob ns +:+ rest)))) by lia.
  rewrite read_loop_blob_then by done. f_equal.
  destruct (skip_separator rest) as [r|] eqn:Hs; [|done].
  apply read_loop_fuel; [|unfold fromstring; lia].
  destruct (skip_separator_consumed _ _ Hs) as (pre & -> & _).
  rewrite !length_app. lia.
Qed.

(** X15.  Reading composes: a text that starts with well-formed numerals
    joined by commas, followed by anything that cannot continue the last
    numeral, reads as the doubles of those numerals followed by what is
    read from the rest after one separator, or by nothing when no separator
    with text after it follows. *)
Theorem fromstring_then (ns : list numeral) (rest : string) :
  ns ≠ [] →
  forallb well_formed ns = true →
  head_ok stop rest = true →
  fromstring (blob ns +:+ rest)
  = ((λ n, to_double (value n)) <$> ns)
    ++ match skip_separator rest with
       | Some r => fromstring r
       | None => []
       end.
Proof.
  intros Hne Hwf Hrest. apply fromstring_blob_then; [done| |done].
  by apply forallb_well_formed.
Qed.

(** A text of white space only. *)
Fixpoint blank (s : string) : bool :=
  match s with
  | String c s' => is_space c && blank s'
  | EmptyString => true
  end.

Lemma skip_spaces_blank ws : blank ws = true → skip_spaces ws = "".
Proof.
  unfold skip_spaces.
  induction ws as [|c ws IH]; [done|]. cbn [blank skip_while].
  intros [-> ?]%andb_true_iff. by apply IH.
Qed.

Lemma space_stops c : is_space c = true → stop c = true.
Proof.
  unfold is_space. intros H.
  repeat (apply orb_true_iff in H as [H|H]);
    apply Ascii.eqb_eq in H; by subst.
Qed.

(** X16.  White space after the last number is ignored: a response body
    with at least one number that ends with a newline, or any other white
    space, reads as the same vector. *)
Theorem fromstring_trailing_space (ns : list numeral) (ws : string) :
  ns ≠ [] →
  forallb well_formed ns = true →
  blank ws = true →
  fromstring (blob ns +:+ ws) = (λ n, to_double (value n)) <$> ns.
Proof.
  intros Hne Hwf Hws. pose proof (skip_spaces_blank ws Hws) as Hskip.
  rewrite fromstring_blob_then; [| done | by apply forallb_well_formed |].
  - unfold skip_separator. rewrite Hskip. by rewrite List.app_nil_r.
  - destruct ws as [|c ws]; [done|]. cbn [head_ok blank] in *.
    apply andb_true_iff in Hws as [Hc _]. by apply space_stops.
Qed.

(** X17.  Results of chunks accumulate: reading the responses to two
    chunks one after the other and appending the vectors gives what reading
    the response to all rows at once gives. *)
Theorem fromstring_accumulates (a b : list numeral) :
  forallb well_formed a = true →
  forallb well_formed b = true →
  fromstring (blob a) ++ fromstring (blob b) = fromstring (blob (a ++ b)).
Proof.
  intros Ha%forallb_well_formed Hb%forallb_well_formed.
  rewrite !fromstring_blob_double; [by rewrite fmap_app|by apply Forall_app|done..].
Qed.

End NumpyFacts.

(** ** How the calls of a run are wired together *)

Lemma string_app_inv_head (p a b : string) : p +:+ a = p +:+ b → a = b.
Proof.
  induction p as [|c p IH]; [done|].
  rewrite !NumpyText.app_cons. intros [= H]. by apply IH.
Qed.

Lemma string_app_inj (a a' b b' : string) :
  String.length a = String.length a' →
  a +:+ b = a' +:+ b' → a = a' ∧ b = b'.
Proof.
  revert a'. induction a as [|c a IH]; intros [|c' a'] Hlen; try done.
  rewrite !NumpyText.app_cons. cbn [String.length] in Hlen.
  intros [= -> H]. destruct (IH a') as [-> ->]; [lia|done..].
Qed.

Lemma string_app_inv_tail (a a' s : string) : a +:+ s = a' +:+ s → a = a'.
Proof.
  intros H. apply (string_app_inj a a' s s); [|done].
  apply (f_equal String.length) in H. rewrite !NumpyText.length_app in H. lia.
Qed.

(** The model an endpoint configuration serves, and the model a run
    creates. *)
Definition served_model (c : Script.call) : list string :=
  match c with
  | Script.create_endpoint_config _ variants => Script.ModelName <$> variants
  | _ => []
  end.

Definition created_model (c : Script.call) : list string :=
  match c with
  | Script.create_model name _ _ _ => [name]
  | _ => []
  end.

(** X18.  In the low-level notebook the endpoint configuration does not
    take the name of the model from the cell that creates the model: a cell
    in between assigns [model_name] a literal.  The endpoint therefore
    serves the model this run has created only in a run whose first clock
    reading prints as [2019-11-09-14-20-03]. *)
Theorem low_level_served_model (e : Script.env) :
  settings served_model LowLevel e
  = ["boston-xgboost-2019-11-09-14-20-03-model"]
  ∧ (settings created_model LowLevel e = settings served_model LowLevel e
     ↔ stamp e 0 = "2019-11-09-14-20-03").
Proof.
  assert (settings served_model LowLevel e
          = ["boston-xgboost-2019-11-09-14-20-03-model"]) as Hserved.
  { unfold settings. run_script. reflexivity. }
  assert (settings created_model LowLevel e
          = [("boston-xgboost-" +:+ stamp e 0) +:+ "-model"]) as Hcreated.
  { unfold settings. run_script. reflexivity. }
  split; [exact Hserved|]. rewrite Hserved, Hcreated.
  change "boston-xgboost-2019-11-09-14-20-03-model"
    with (("boston-xgboost-" +:+ "2019-11-09-14-20-03") +:+ "-model").
  split.
  - intros [= H]. apply string_app_inv_tail in H.
    by apply string_app_inv_head in H.
  - by intros ->.
Qed.

(** The storage prefix of a notebook. *)
Definition prefix (nb : notebook) : string :=
  match nb with
  | HighLevel => "boston-xgboost-deploy-hl"
  | LowLevel => "boston-xgboost-deploy-ll"
  end.

(** The input channels of the training job: name, S3 location, content
    type; and where the job writes. *)
Definition training_inputs (c : Script.call)
  : list (string * string * string) :=
  match c with
  | Script.fit inputs => (λ i, (i.1, i.2.1, i.2.2)) <$> inputs
  | Script.create_training_job params =>
      (λ ch, (Script.ChannelName ch, Script.S3Uri ch, Script.ContentType ch))
        <$> Script.InputDataConfig params
  | _ => []
  end.

Definition training_output (c : Script.call) : list string :=
  match c with
  | Script.Estimator _ _ _ _ output_path => [output_path]
  | Script.create_training_job params => [Script.S3OutputPath params]
  | _ => []
  end.

Definition uploads (c : Script.call) : list (string * string) :=
  match c with
  | Script.upload_data path key_prefix => [(path, key_prefix)]
  | _ => []
  end.

(** X19.  In both notebooks the training job reads what the run has
    uploaded and nothing else: the channel [train] is the uploaded
    [train.csv] and the channel [validation] the uploaded [validation.csv]
    (the files are uploaded in the other order), both as CSV, both under the
    prefix of the notebook in the default bucket, and the job writes below
    the same prefix. *)
Theorem training_reads_uploads (nb : notebook) (e : Script.env) :
  settings uploads nb e
  = [("../data/boston/validation.csv", prefix nb);
     ("../data/boston/train.csv", prefix nb)]
  ∧ settings training_inputs nb e
    = [("train",
        "s3://" +:+ Script.default_bucket e +:+ "/" +:+ prefix nb
          +:+ "/" +:+ "train.csv",
        "csv");
       ("validation",
        "s3://" +:+ Script.default_bucket e +:+ "/" +:+ prefix nb
          +:+ "/" +:+ "validation.csv",
        "csv")]
  ∧ settings training_output nb e
    = ["s3://" +:+ Script.default_bucket e +:+ "/" +:+ prefix nb
         +:+ "/output"].
Proof.
  destruct nb; repeat split; unfold settings; run_script; reflexivity.
Qed.

(** What the calls of the low-level clients refer to. *)
Definition job_reference (c : Script.call) : list string :=
  match c with
  | Script.create_training_job params => [Script.TrainingJobName params]
  | Script.logs_for_job name | Script.describe_training_job name => [name]
  | _ => []
  end.

Definition model_source (c : Script.call) : list (string * string) :=
  match c with
  | Script.create_model _ _ image model_data_url => [(image, model_data_url)]
  | _ => []
  end.

Definition config_reference (c : Script.call) : list string :=
  match c with
  | Script.create_endpoint_config name _ => [name]
  | Script.create_endpoint _ config_name => [config_name]
  | _ => []
  end.

Definition endpoint_reference (c : Script.call) : list string :=
  match c with
  | Script.create_endpoint name _ | Script.wait_for_endpoint name
  | Script.invoke_endpoint name _ | Script.delete_endpoint name => [name]
  | _ => []
  end.

(** X20.  In the low-level notebook every later call refers to what the
    run itself has made: the logs and the description are asked for the
    training job that was started; the model is built from the training
    image and from the artifacts of that job; the endpoint is created from
    the configuration that was created; and the calls that wait for, invoke
    and delete an endpoint name the endpoint that was created. *)
Theorem low_level_references (e : Script.env) :
  settings job_reference LowLevel e
  = replicate 3 ("boston-xgboost-" +:+ stamp e 0)
  ∧ settings model_source LowLevel e
    = [(Script.get_image_uri e (Script.boto_region_name e) "xgboost" "0.90-1",
        Script.model_artifacts e ("boston-xgboost-" +:+ stamp e 0))]
  ∧ settings model_source LowLevel e
    = (λ image, (image, Script.model_artifacts e
                          ("boston-xgboost-" +:+ stamp e 0)))
        <$> settings training_image LowLevel e
  ∧ settings config_reference LowLevel e
    = replicate 2 ("boston-xgboost-endpoint-config-" +:+ stamp e 1)
  ∧ settings endpoint_reference LowLevel e
    = replicate 4 ("boston-xgboost-endpoint-" +:+ stamp e 2).
Proof.
  repeat split; unfold settings; run_script; reflexivity.
Qed.

(** ** Time stamps as names *)

(** The fields of a reading of the clock that [strftime] pads to two
    digits have at most two. *)
Definition two_digit_fields (t : Script.struct_time) : bool :=
  (Script.tm_mon t <? 100) && (Script.tm_mday t <? 100)
  && (Script.tm_hour t <? 100) && (Script.tm_min t <? 100)
  && (Script.tm_sec t <? 100).

Lemma two_digits_length (n : nat) :
  n < 100 → String.length (Script.two_digits n) = 2.
Proof.
  intros H.
  assert (forallb (λ n, String.length (Script.two_digits n) =? 2) (seq 0 100)
          = true) as Hall by (vm_compute; reflexivity).
  rewrite forallb_forall in Hall.
  apply Nat.eqb_eq, Hall, in_seq. lia.
Qed.

Lemma two_digits_inj (n m : nat) :
  n < 100 → m < 100 → Script.two_digits n = Script.two_digits m → n = m.
Proof.
  intros Hn Hm H.
  assert (forallb (λ n, forallb (λ m,
            implb (String.eqb (Script.two_digits n) (Script.two_digits m))
                  (n =? m)) (seq 0 100)) (seq 0 100) = true) as Hall
    by (vm_compute; reflexivity).
  rewrite forallb_forall in Hall.
  specialize (Hall n). rewrite forallb_forall in Hall.
  specialize (Hall ltac:(apply in_seq; lia) m ltac:(apply in_seq; lia)).
  apply String.eqb_eq in H. rewrite H in Hall. by apply Nat.eqb_eq.
Qed.

Lemma two_digit_fields_lt (t : Script.struct_time) :
  two_digit_fields t = true →
  Script.tm_mon t < 100 ∧ Script.tm_mday t < 100 ∧ Script.tm_hour t < 100
  ∧ Script.tm_min t < 100 ∧ Script.tm_sec t < 100.
Proof.
  unfold two_digit_fields. rewrite !andb_true_iff, !Nat.ltb_lt. tauto.
Qed.

Lemma stamp_tail_length (a b c d f : nat) :
  a < 100 → b < 100 → c < 100 → d < 100 → f < 100 →
  String.length ("-" +:+ Script.two_digits a +:+ "-" +:+ Script.two_digits b
                 +:+ "-" +:+ Script.two_digits c +:+ "-"
                 +:+ Script.two_digits d +:+ "-" +:+ Script.two_digits f)
  = 15.
Proof.
  intros. rewrite !NumpyText.length_app, !two_digits_length by done.
  reflexivity.
Qed.

(** X21.  The names are unique, as the comments of the low-level notebook
    want them, as far as the clock is: two readings of the clock print as
    the same time stamp only if they are the same reading, whatever the
    number of digits of the year. *)
Theorem timestamp_unique (t t' : Script.struct_time) :
  two_digit_fields t = true → two_digit_fields t' = true →
  Script.strftime Script.timestamp_format t
  = Script.strftime Script.timestamp_format t' →
  t = t'.
Proof.
  intros (?&?&?&?&?)%two_digit_fields_lt (?&?&?&?&?)%two_digit_fields_lt.
  rewrite !strftime_timestamp. intros Heq.
  destruct t as [y mo d h mi s], t' as [y' mo' d' h' mi' s'].
  cbn [Script.tm_year Script.tm_mon Script.tm_mday Script.tm_hour
       Script.tm_min Script.tm_sec] in *.
  assert (String.length (pretty y) = String.length (pretty y')) as Hy.
  { apply (f_equal String.length) in Heq.
    rewrite (NumpyText.length_app (pretty y)) in Heq.
    rewrite (NumpyText.length_app (pretty y')) in Heq.
    rewrite !stamp_tail_length in Heq by done. lia. }
  apply string_app_inj in Heq as [Hy' Heq]; [|done].
  apply (inj pretty) in Hy' as ->.
  apply string_app_inv_head in Heq.
  apply string_app_inj in Heq as [E1 Heq]; [|by rewrite !two_digits_length].
  apply string_app_inv_head in Heq.
  apply string_app_inj in Heq as [E2 Heq]; [|by rewrite !two_digits_length].
  apply string_app_inv_head in Heq.
  apply string_app_inj in Heq as [E3 Heq]; [|by rewrite !two_digits_length].
  apply string_app_inv_head in Heq.
  apply string_app_inj in Heq as [E4 Heq]; [|by rewrite !two_digits_length].
  apply string_app_inv_head in Heq.
  apply two_digits_inj in E1, E2, E3, E4, Heq; try done.
  by subst.
Qed.

Lemma timestamp_unique_witness :
  Script.mk_time 2019 11 9 14 20 3 = Script.mk_time 2019 11 9 14 20 3.
Proof.
  apply timestamp_unique; vm_compute; reflexivity.
Defined.

(** ** Concrete runs *)

(** The frames of the sample dataset as a notebook splits them, with the
    stand-in splitter started in state [0]. *)
Definition sample_splits (nb : notebook) : Frame.splits Z :=
  match Frame.split_cell Z nat Z.to_nat rotating_split nb 0 sample with
  | Some (s, _) => s
  | None =>
      let empty := Frame.mkDataFrame Z [] [] in
      Frame.mkSplits Z empty empty empty empty empty empty
  end.

(** The state a cell leaves, and the empty state if it raises. *)
Definition state_after (r : FS.result (gmap FS.path FS.node))
  : gmap FS.path FS.node :=
  match r with
  | FS.Ok fs => fs
  | FS.Raise _ => ∅
  end.

#[export] Instance oserror_eq_dec : EqDecision FS.oserror.
Proof. solve_decision. Defined.

#[export] Instance result_eq_dec {A} `{EqDecision A} : EqDecision (FS.result A).
Proof. solve_decision. Defined.

(** Equations between concrete states are decided by evaluation. *)
Ltac evaluate := apply (bool_decide_unpack _); vm_compute; exact I.

Definition fs_saved : gmap FS.path FS.node :=
  state_after (Frame.save_cell Z pretty (FS.data_dir cwd_tutorials)
                 (sample_splits HighLevel) fs_ready).

Lemma save_cell_overwrites_witness :
  Frame.save_cell Z pretty (FS.data_dir cwd_tutorials)
    (sample_splits HighLevel) fs_ready = FS.Ok fs_saved
  ∧ Frame.save_cell Z pretty (FS.data_dir cwd_tutorials)
      (sample_splits LowLevel) fs_saved
    = Frame.save_cell Z pretty (FS.data_dir cwd_tutorials)
        (sample_splits LowLevel) fs_ready.
Proof.
  split; [evaluate|].
  apply (save_cell_overwrites Z pretty (FS.data_dir cwd_tutorials)
           (sample_splits HighLevel)).
  evaluate.
Defined.

Definition fs_guarded : gmap FS.path FS.node :=
  state_after (FS.ensure_data_dir cwd_tutorials fs_fresh).

Definition fs_guarded_saved : gmap FS.path FS.node :=
  state_after (Frame.save_cell Z pretty (FS.data_dir cwd_tutorials)
                 (sample_splits HighLevel) fs_guarded).

Lemma clean_up_after_save_witness :
  (∀ name, fs_fresh !! (name :: FS.data_dir cwd_tutorials) = None)
  ∧ FS.ensure_data_dir cwd_tutorials fs_fresh = FS.Ok fs_guarded
  ∧ Frame.save_cell Z pretty (FS.data_dir cwd_tutorials)
      (sample_splits HighLevel) fs_guarded = FS.Ok fs_guarded_saved
  ∧ Shell.clean_up cwd_tutorials fs_guarded_saved
    = delete (FS.data_dir cwd_tutorials) fs_guarded
  ∧ (fs_fresh !! FS.data_dir cwd_tutorials = None →
     Shell.clean_up cwd_tutorials fs_guarded_saved
       !! ("data" :: FS.parent cwd_tutorials) = Some FS.Dir).
Proof.
  assert (∀ name, fs_fresh !! (name :: FS.data_dir cwd_tutorials) = None)
    as Hempty.
  { intros name. unfold fs_fresh.
    rewrite !lookup_insert_ne by discriminate. apply lookup_empty. }
  split; [exact Hempty|].
  split; [evaluate|].
  split; [evaluate|].
  apply (clean_up_after_save Z pretty cwd_tutorials
           (sample_splits HighLevel) fs_fresh).
  - exact Hempty.
  - evaluate.
  - evaluate.
Defined.

Lemma written_frames_rectangular_witness :
  Frame.split_cell Z nat Z.to_nat rotating_split LowLevel 0 sample
  = Some (sample_splits LowLevel, 2)
  ∧ Forall (λ row, length row = 2) (Frame.data Z sample)
  ∧ Forall (λ r, length r.2 = 3 ∧ Forall is_Some r.2)
      (Frame.rows Z
         (Frame.concat_columns Z (Frame.Y_val Z (sample_splits LowLevel))
            (Frame.X_val Z (sample_splits LowLevel))))
  ∧ Forall (λ r, length r.2 = 3 ∧ Forall is_Some r.2)
      (Frame.rows Z
         (Frame.concat_columns Z (Frame.Y_train Z (sample_splits LowLevel))
            (Frame.X_train Z (sample_splits LowLevel)))).
Proof.
  split; [vm_compute; reflexivity|].
  assert (Forall (λ row, length row = 2) (Frame.data Z sample)) as Hwidth
    by (repeat constructor).
  split; [exact Hwidth|].
  apply (written_frames_rectangular Z nat Z.to_nat rotating_split
           LowLevel 0 2 sample); [|exact Hwidth].
  vm_compute. reflexivity.
Defined.

(** The frame the low-level notebook writes to [validation.csv] for the
    sample dataset. *)
Definition sample_validation_frame : Frame.DataFrame Z :=
  Frame.concat_columns Z (Frame.Y_val Z (sample_splits LowLevel))
    (Frame.X_val Z (sample_splits LowLevel)).

Lemma to_csv_round_trip_witness :
  csv_safe Z pretty sample_validation_frame = true
  ∧ Payload.deserialize
      (Frame.to_csv Z pretty sample_validation_frame false false)
    = ((λ r : nat * list (option Z), Frame.fmt_cell Z pretty <$> r.2)
         <$> Frame.rows Z sample_validation_frame)
      ++ [[""]].
Proof.
  split; [vm_compute; reflexivity|].
  apply to_csv_round_trip. vm_compute. reflexivity.
Defined.

Lemma fromstring_fuel_witness :
  String.length "24.5,-0.75,3e-2" < 40
  ∧ NumpyText.read_loop 40 "24.5,-0.75,3e-2"
    = NumpyText.fromstring "24.5,-0.75,3e-2".
Proof.
  split; [vm_compute; lia|].
  apply NumpyFacts.fromstring_fuel. vm_compute. lia.
Defined.

Lemma fromstring_then_witness :
  NumpyText.fromstring (NumpyText.blob sample_numerals +:+ " , 7")
  = ((λ n, NumpyText.to_double (NumpyText.value n)) <$> sample_numerals)
    ++ NumpyText.fromstring " 7".
Proof.
  apply (NumpyFacts.fromstring_then sample_numerals " , 7");
    [discriminate|vm_compute; reflexivity..].
Defined.

Lemma fromstring_trailing_space_witness :
  NumpyText.fromstring
    (NumpyText.blob sample_numerals +:+ String PyStr.newline "")
  = (λ n, NumpyText.to_double (NumpyText.value n)) <$> sample_numerals.
Proof.
  apply NumpyFacts.fromstring_trailing_space;
    [discriminate|vm_compute; reflexivity..].
Defined.

Lemma fromstring_accumulates_witness :
  NumpyText.fromstring (NumpyText.blob sample_numerals)
    ++ NumpyText.fromstring (NumpyText.blob (rev sample_numerals))
  = NumpyText.fromstring
      (NumpyText.blob (sample_numerals ++ rev sample_numerals)).
Proof.
  apply NumpyFacts.fromstring_accumulates; vm_compute; reflexivity.
Defined.
